(** * Story Tracker: article selection with category fallback

    A shallow embedding of [src/models/article.py] (dataclasses,
    [FallbackManager], [ArticleSelector]) and of the part of
    [src/models/database.py] the selector talks to ([DatabaseManager]:
    [add_article], [get_fresh_articles_for_subscriber], [exclude_article],
    [record_article_send], [get_setting], [set_setting]).

    Conventions of the embedding.
    - Python [int] is [Z]; [Optional[int]] is [option Z]; [str] is [string].
    - A Python dict used as a map is a [gmap]; the six-key row dict built by
      [get_fresh_articles_for_subscriber] is the record [ArticleDict].
    - The SQLite file is the record [Database], one list of rows per table in
      rowid order.  SQL statements are interpreted relationally; a bound
      parameter of value [None] is SQL NULL.  Foreign keys are declared but
      never enforced (the code issues no [PRAGMA foreign_keys]).
    - [CURRENT_TIMESTAMP] is a clock reading passed in as [now].  The fixed
      width text ['YYYY-MM-DD HH:MM:SS'] it produces orders, under SQLite's
      binary collation, exactly as the instants it denotes, so timestamps
      are integers.
    - Ids are rowids, values of SQLite's INTEGER type: signed 64-bit
      ([sqlite_int]).  A Python [int] beyond that range is refused by the
      [sqlite3] binding ([OverflowError]) before the statement runs; calls
      with such an argument are outside the model.
    - A table declared AUTOINCREMENT has a [sqlite_sequence] counter.  An
      insert draws its rowid from the counter before its constraints are
      checked, so an [INSERT OR IGNORE] that skips its row leaves the rows
      alone and still moves the counter.
    - A call either returns or raises: [outcome].  I/O failures of the
      storage engine are outside the model. *)

From stdpp Require Import gmap strings list fin_maps sorting.
From Stdlib Require Import ZArith.

Open Scope string_scope.
Open Scope Z_scope.

(** ** Outcomes of calls *)

Inductive outcome (A : Type) : Type :=
| Return (a : A)
| Raise (exc : string).
Arguments Return {A} a.
Arguments Raise {A} exc.

(** An exception raised by a callee propagates through the caller; with this
    instance [x ← m; k] is such a call followed by the rest of the body. *)
#[global] Instance outcome_bind : MBind outcome := λ A B k m,
  match m with
  | Return a => k a
  | Raise e => Raise e
  end.

(** Python's [l[:k]]: a negative bound counts from the end. *)
Definition slice_to {A : Type} (k : Z) (l : list A) : list A :=
  if decide (0 ≤ k) then take (Z.to_nat k) l
  else take (Z.to_nat (Z.of_nat (length l) + k)) l.

(** Python's [len]. *)
Definition len {A : Type} (l : list A) : Z := Z.of_nat (length l).

(** ** Dataclasses of [article.py] *)

(** The dict built per row by [get_fresh_articles_for_subscriber]. *)
Record ArticleDict : Type := mkArticleDict {
  d_id : Z;
  d_title : string;
  d_url : string;
  d_outlet : string;
  d_issue_area : string;
  d_scraped_at : Z
}.

Module Article.

Record t : Type := mk {
  title : string;
  url : string;
  outlet : string;
  issue_area : string;
  id : option Z;
  scraped_at : option Z;
  excluded : bool
}.

(** [Article.from_dict] on a row dict: the dict has no ['excluded'] key, so
    [data.get('excluded', False)] is [False]; its ['scraped_at'] is a
    non-empty timestamp text, hence truthy and parsed. *)
Definition from_dict (data : ArticleDict) : t :=
  {| title := d_title data;
     url := d_url data;
     outlet := d_outlet data;
     issue_area := d_issue_area data;
     id := Some (d_id data);
     scraped_at := Some (d_scraped_at data);
     excluded := false |}.

End Article.

Module Subscriber.

Record t : Type := mk {
  email : string;
  issue_area_1 : string;
  issue_area_2 : string;
  issue_area_3 : string;
  active : bool;
  id : option Z;
  created_at : option Z;
  updated_at : option Z
}.

Definition issue_areas (self : t) : list string :=
  [issue_area_1 self; issue_area_2 self; issue_area_3 self].

End Subscriber.

(** ** [FallbackManager] *)

Module FallbackManager.

Definition FALLBACK_MAPPING : gmap string (list string) :=
  list_to_map
    [ ("Health", ["Mental Health"; "Community Development"]);
      ("Mental Health", ["Health"; "Social Services"]);
      ("Housing", ["Economic Development"; "Community Development"]);
      ("Environment", ["Energy"; "Agriculture"; "Public Safety"]);
      ("Criminal Justice", ["Public Safety"; "Community Development"; "Mental Health"]);
      ("Economic Development", ["Housing"; "Workforce Development"; "Community Development"]);
      ("Democracy & Governance", ["Public Safety"; "Community Development"]);
      ("Immigration", ["Social Services"; "Community Development"]);
      ("Transportation", ["Infrastructure"; "Public Safety"; "Environment"]);
      ("Food Security", ["Agriculture"; "Community Development"; "Health"]);
      ("Community Development", ["Social Services"; "Economic Development"]);
      ("Technology", ["Education"; "Infrastructure"]);
      ("Energy", ["Environment"; "Infrastructure"]);
      ("Agriculture", ["Food Security"; "Environment"; "Economic Development"]);
      ("Social Services", ["Community Development"; "Mental Health"]);
      ("Arts & Culture", ["Community Development"; "Education"]);
      ("Youth Development", ["Education"; "Community Development"]);
      ("Senior Services", ["Health"; "Social Services"]);
      ("Public Safety", ["Criminal Justice"; "Community Development"]);
      ("Infrastructure", ["Transportation"; "Economic Development"]);
      ("Workforce Development", ["Economic Development"; "Education"]) ].

Definition get_fallback_categories (primary_category : string) (max_fallbacks : Z)
  : list string :=
  slice_to max_fallbacks (default [] (FALLBACK_MAPPING !! primary_category)).

(** The default value of [max_fallbacks]. *)
Definition default_max_fallbacks : Z := 3.

Definition get_all_related_categories (primary_category : string) : list string :=
  let fallbacks := get_fallback_categories primary_category default_max_fallbacks in
  primary_category :: fallbacks.

End FallbackManager.

(** ** The SQLite store *)

(** Table [subscribers]. *)
Record SubscribersRow : Type := mkSubscribersRow {
  sub_id : Z;
  sub_email : string;
  sub_issue_area_1 : string;
  sub_issue_area_2 : string;
  sub_issue_area_3 : string;
  sub_active : bool
}.

(** Table [articles] (alias [a] in the queries). *)
Record ArticlesRow : Type := mkArticlesRow {
  a_id : Z;
  a_url_hash : string;
  a_title : string;
  a_url : string;
  a_outlet : string;
  a_issue_area : string;
  a_scraped_at : Z;
  a_excluded : bool
}.

(** Table [article_sends] (alias [s] in the queries). *)
Record SendsRow : Type := mkSendsRow {
  s_id : Z;
  s_subscriber_id : Z;
  s_article_id : Z;
  s_campaign_id : Z;
  s_sent_at : Z
}.

(** The database file: its tables, and for the two AUTOINCREMENT tables the
    modelled operations insert into, the [sqlite_sequence] counter. *)
Record Database : Type := mkDatabase {
  subscribers : list SubscribersRow;
  articles : list ArticlesRow;
  articles_seq : Z;
  article_sends : list SendsRow;
  article_sends_seq : Z;
  admin_settings : gmap string string
}.

(** The rowid an AUTOINCREMENT table hands out next: one more than the
    largest rowid that ever existed in it. *)
Definition next_rowid (seq : Z) (ids : list Z) : Z :=
  foldr Z.max seq ids + 1.

(** The values of SQLite's INTEGER type. *)
Definition sqlite_int (z : Z) : Prop := - 2 ^ 63 ≤ z < 2 ^ 63.

#[global] Instance sqlite_int_dec z : Decision (sqlite_int z).
Proof. unfold sqlite_int. apply _. Defined.

(** [ORDER BY key DESC], ties in scan order. *)
Fixpoint insert_desc {A : Type} (key : A → Z) (x : A) (l : list A) : list A :=
  match l with
  | [] => [x]
  | y :: l' =>
      if decide (key x < key y) then y :: insert_desc key x l'
      else x :: y :: l'
  end.

Definition order_by_desc {A : Type} (key : A → Z) (l : list A) : list A :=
  foldr (insert_desc key) [] l.

Module DatabaseManager.

Definition empty_database : Database :=
  {| subscribers := []; articles := []; articles_seq := 0;
     article_sends := []; article_sends_seq := 0; admin_settings := ∅ |}.

Definition default_settings : list (string * string) :=
  [ ("email_schedule_day", "1");
    ("email_schedule_hour", "9");
    ("email_schedule_minute", "0");
    ("fallback_enabled", "1");
    ("min_articles_per_category", "1") ].

(** [init_database]: the tables exist already in the model; the default
    settings are written with [INSERT OR IGNORE]. *)
Definition init_database (db : Database) : Database :=
  {| subscribers := subscribers db;
     articles := articles db;
     articles_seq := articles_seq db;
     article_sends := article_sends db;
     article_sends_seq := article_sends_seq db;
     admin_settings :=
       foldl (λ m kv, match m !! kv.1 with
                      | Some _ => m
                      | None => <[kv.1 := kv.2]> m
                      end)
             (admin_settings db) default_settings |}.

(** *** Articles *)

(** An [INSERT OR IGNORE INTO articles] that skips its row: the rows stay,
    the counter moves to the rowid that was drawn. *)
Definition ignored_articles_insert (db : Database) : Database :=
  {| subscribers := subscribers db;
     articles := articles db;
     articles_seq := next_rowid (articles_seq db) (a_id <$> articles db);
     article_sends := article_sends db;
     article_sends_seq := article_sends_seq db;
     admin_settings := admin_settings db |}.

Section AddArticle.

(** [hashlib.md5(url.encode()).hexdigest()]. *)
Variable md5_hexdigest : string → string.

(** [add_article]: [INSERT OR IGNORE] on the UNIQUE [url_hash]; when the
    row was ignored, the counter has moved all the same
    ([ignored_articles_insert]) and the id of the stored row is read
    back.  A [fetchone()] that finds no row makes [[0]] raise, which the
    [except] turns into [None], before anything is committed. *)
Definition add_article (now : Z) (title url outlet issue_area : string)
    (db : Database) : option Z * Database :=
  let url_hash := md5_hexdigest url in
  match filter (λ a, a_url_hash a = url_hash) (articles db) with
  | [] =>
      let article_id := next_rowid (articles_seq db) (a_id <$> articles db) in
      (Some article_id,
       {| subscribers := subscribers db;
          articles := articles db ++
            [ {| a_id := article_id; a_url_hash := url_hash; a_title := title;
                 a_url := url; a_outlet := outlet; a_issue_area := issue_area;
                 a_scraped_at := now; a_excluded := false |} ];
          articles_seq := article_id;
          article_sends := article_sends db;
          article_sends_seq := article_sends_seq db;
          admin_settings := admin_settings db |})
  | _ :: _ =>
      match head (filter (λ a, a_url_hash a = url_hash) (articles db)) with
      | Some row => (Some (a_id row), ignored_articles_insert db)
      | None => (None, db)
      end
  end.

End AddArticle.

(** [LEFT JOIN article_sends s ON a.id = s.article_id AND s.subscriber_id = ?]:
    every article with each of its matching send rows, or once with an
    all-NULL [s] when it has none.  A NULL parameter matches nothing. *)
Definition join_on (subscriber_id : option Z) (a : ArticlesRow) (s : SendsRow) : Prop :=
  a_id a = s_article_id s ∧ Some (s_subscriber_id s) = subscriber_id.

#[global] Instance join_on_dec subscriber_id a s : Decision (join_on subscriber_id a s).
Proof. unfold join_on. apply _. Defined.

Definition left_join_sends (subscriber_id : option Z) (db : Database)
  : list (ArticlesRow * option SendsRow) :=
  a ← articles db;
  match filter (join_on subscriber_id a) (article_sends db) with
  | [] => [(a, None)]
  | matches => (λ s, (a, Some s)) <$> matches
  end.

(** [WHERE a.issue_area = ? AND a.excluded = 0 AND s.id IS NULL]. *)
Definition where_fresh (issue_area : string) (r : ArticlesRow * option SendsRow) : Prop :=
  a_issue_area r.1 = issue_area ∧ a_excluded r.1 = false ∧ r.2 = None.

#[global] Instance where_fresh_dec issue_area r : Decision (where_fresh issue_area r).
Proof. unfold where_fresh. apply _. Defined.

(** The [LIMIT] of the query. *)
Definition fresh_limit : nat := 10.

(** The [a] columns of the rows the [WHERE] keeps, in [ORDER BY] order. *)
Definition fresh_rows_ordered (subscriber_id : option Z) (issue_area : string)
    (db : Database) : list ArticlesRow :=
  order_by_desc a_scraped_at
    (fst <$> filter (where_fresh issue_area) (left_join_sends subscriber_id db)).

(** The rows [cursor.fetchall()] yields for one issue area. *)
Definition fresh_rows (subscriber_id : option Z) (issue_area : string) (db : Database)
  : list ArticlesRow :=
  take fresh_limit (fresh_rows_ordered subscriber_id issue_area db).

Definition row_dict (row : ArticlesRow) : ArticleDict :=
  {| d_id := a_id row; d_title := a_title row; d_url := a_url row;
     d_outlet := a_outlet row; d_issue_area := a_issue_area row;
     d_scraped_at := a_scraped_at row |}.

Definition get_fresh_articles_for_subscriber (subscriber_id : option Z)
    (issue_areas : list string) (db : Database)
  : outcome (gmap string (list ArticleDict)) :=
  Return
    (foldl (λ articles_by_category issue_area,
              <[issue_area := row_dict <$> fresh_rows subscriber_id issue_area db]>
                articles_by_category)
           ∅ issue_areas).

(** [exclude_article]: returns [cursor.rowcount > 0]. *)
Definition exclude_article (article_id : Z) (excluded : bool) (db : Database)
  : bool * Database :=
  (bool_decide (Exists (λ a, a_id a = article_id) (articles db)),
   {| subscribers := subscribers db;
      articles :=
        (λ a, if decide (a_id a = article_id)
              then {| a_id := a_id a; a_url_hash := a_url_hash a; a_title := a_title a;
                      a_url := a_url a; a_outlet := a_outlet a;
                      a_issue_area := a_issue_area a; a_scraped_at := a_scraped_at a;
                      a_excluded := excluded |}
              else a) <$> articles db;
      articles_seq := articles_seq db;
      article_sends := article_sends db;
      article_sends_seq := article_sends_seq db;
      admin_settings := admin_settings db |}).

(** *** The send ledger *)

(** An [INSERT OR IGNORE INTO article_sends] that skips its row: the rows
    stay, the counter moves to the rowid that was drawn. *)
Definition ignored_sends_insert (db : Database) : Database :=
  {| subscribers := subscribers db;
     articles := articles db;
     articles_seq := articles_seq db;
     article_sends := article_sends db;
     article_sends_seq :=
       next_rowid (article_sends_seq db) (s_id <$> article_sends db);
     admin_settings := admin_settings db |}.

(** [record_article_send]: [INSERT OR IGNORE] skips the row when a column
    declared NOT NULL would be NULL or when [UNIQUE(subscriber_id,
    article_id)] would be violated ([ignored_sends_insert]).  Whatever the
    statement raises is caught and printed; the method returns [None]. *)
Definition record_article_send (now : Z) (subscriber_id article_id campaign_id : option Z)
    (db : Database) : outcome unit * Database :=
  match subscriber_id, article_id, campaign_id with
  | Some sid, Some aid, Some cid =>
      match filter (λ s, s_subscriber_id s = sid ∧ s_article_id s = aid)
                   (article_sends db) with
      | [] =>
          let rowid := next_rowid (article_sends_seq db) (s_id <$> article_sends db) in
          (Return (),
           {| subscribers := subscribers db;
              articles := articles db;
              articles_seq := articles_seq db;
              article_sends := article_sends db ++
                [ {| s_id := rowid; s_subscriber_id := sid; s_article_id := aid;
                     s_campaign_id := cid; s_sent_at := now |} ];
              article_sends_seq := rowid;
              admin_settings := admin_settings db |})
      | _ :: _ => (Return (), ignored_sends_insert db)
      end
  | _, _, _ => (Return (), ignored_sends_insert db)
  end.

(** *** Admin settings *)

Definition get_setting (key : string) (default : option string) (db : Database)
  : option string :=
  match admin_settings db !! key with
  | Some value => Some value
  | None => default
  end.

Definition set_setting (key value : string) (db : Database) : Database :=
  {| subscribers := subscribers db;
     articles := articles db;
     articles_seq := articles_seq db;
     article_sends := article_sends db;
     article_sends_seq := article_sends_seq db;
     admin_settings := <[key := value]> (admin_settings db) |}.

End DatabaseManager.

(** ** [ArticleSelector] *)

Module ArticleSelector.

(** The instance state next to the shared store: the attribute
    [last_fallback_usage] does not exist before the first selection. *)
Record t : Type := mk {
  last_fallback_usage : option (gmap string bool)
}.

(** [__init__]. *)
Definition init : t := {| last_fallback_usage := None |}.

(** The loop over the fallback categories of [_get_articles_with_fallback],
    with its [break]. *)
Fixpoint fallback_loop (articles_by_category : gmap string (list ArticleDict))
    (needed_count : Z) (fallback_categories : list string)
    (selected_articles : list Article.t) : list Article.t :=
  match fallback_categories with
  | [] => selected_articles
  | fallback_category :: rest =>
      if decide (len selected_articles >= needed_count) then selected_articles
      else
        let fallback_articles := default [] (articles_by_category !! fallback_category) in
        let remaining_needed := needed_count - len selected_articles in
        fallback_loop articles_by_category needed_count rest
          (selected_articles ++
             (Article.from_dict <$> slice_to remaining_needed fallback_articles))
  end.

Definition _get_articles_with_fallback (subscriber_id : option Z)
    (primary_category : string) (needed_count : Z) (db : Database)
  : outcome (list Article.t) :=
  let all_categories := FallbackManager.get_all_related_categories primary_category in
  articles_by_category ←
    DatabaseManager.get_fresh_articles_for_subscriber subscriber_id all_categories db;
  let primary_articles := default [] (articles_by_category !! primary_category) in
  let selected_articles := Article.from_dict <$> slice_to needed_count primary_articles in
  if decide (len selected_articles < needed_count) then
    let fallback_categories :=
      FallbackManager.get_fallback_categories primary_category
        FallbackManager.default_max_fallbacks in
    Return (fallback_loop articles_by_category needed_count fallback_categories
              selected_articles)
  else Return selected_articles.

(** The loop over [subscriber.issue_areas] of
    [select_articles_for_subscriber]. *)
Fixpoint select_loop (subscriber_id : option Z) (articles_per_category : Z)
    (db : Database) (issue_areas : list string)
    (selected_articles : gmap string (list Article.t))
    (fallback_used : gmap string bool)
  : outcome (gmap string (list Article.t) * gmap string bool) :=
  match issue_areas with
  | [] => Return (selected_articles, fallback_used)
  | issue_area :: rest =>
      articles ←
        _get_articles_with_fallback subscriber_id issue_area articles_per_category db;
      match articles with
      | _ :: _ =>
          let primary_articles :=
            filter (λ a, Article.issue_area a = issue_area) articles in
          select_loop subscriber_id articles_per_category db rest
            (<[issue_area := articles]> selected_articles)
            (if decide (len primary_articles < len articles)
             then <[issue_area := true]> fallback_used
             else fallback_used)
      | [] =>
          select_loop subscriber_id articles_per_category db rest
            (<[issue_area := []]> selected_articles)
            (<[issue_area := true]> fallback_used)
      end
  end.

(** [select_articles_for_subscriber]: the store is only read; the instance
    gets its [last_fallback_usage] once the loop is through. *)
Definition select_articles_for_subscriber (subscriber : Subscriber.t)
    (articles_per_category : Z) (db : Database) (self : t)
  : outcome (gmap string (list Article.t)) * t :=
  match select_loop (Subscriber.id subscriber) articles_per_category db
          (Subscriber.issue_areas subscriber) ∅ ∅ with
  | Return (selected_articles, fallback_used) =>
      (Return selected_articles, {| last_fallback_usage := Some fallback_used |})
  | Raise exc => (Raise exc, self)
  end.

(** The default of [articles_per_category]. *)
Definition default_articles_per_category : Z := 1.

(** [getattr(self, 'last_fallback_usage', {}).get(issue_area, False)]. *)
Definition was_fallback_used (issue_area : string) (self : t) : bool :=
  default false (default ∅ (last_fallback_usage self) !! issue_area).

End ArticleSelector.

(** * Vocabulary of the properties *)

#[global] Instance article_eq_dec : EqDecision Article.t.
Proof. solve_decision. Defined.

(** Newest first: every element is at least as new as all that follow. *)
Definition newest_first {A : Type} (key : A → Z) (l : list A) : Prop :=
  StronglySorted (λ x y, key y ≤ key x) l.

(** A send record of the ledger for the pair. *)
Definition has_send (db : Database) (subscriber_id article_id : Z) : Prop :=
  ∃ s, s ∈ article_sends db ∧
       s_subscriber_id s = subscriber_id ∧ s_article_id s = article_id.

(** The rows the query's [WHERE] lets through, before [ORDER BY] and
    [LIMIT]: stored, of the topic, not excluded, never sent to the
    subscriber. *)
Definition is_fresh (subscriber_id : option Z) (issue_area : string)
    (db : Database) (a : ArticlesRow) : Prop :=
  a ∈ articles db ∧ a_issue_area a = issue_area ∧ a_excluded a = false ∧
  ∀ sid, subscriber_id = Some sid → ¬ has_send db sid (a_id a).

(** A topic's fresh list as the selector sees it: what the store returns
    for the topic, turned into [Article]s. *)
Definition fresh_articles (subscriber_id : option Z) (db : Database)
    (issue_area : string) : list Article.t :=
  Article.from_dict <$>
    (DatabaseManager.row_dict <$>
       DatabaseManager.fresh_rows subscriber_id issue_area db).

(** The topic's own fresh list followed by those of its fallbacks, in
    listed order. *)
Definition candidate_articles (subscriber_id : option Z) (db : Database)
    (issue_area : string) : list Article.t :=
  fresh_articles subscriber_id db issue_area ++
  concat (fresh_articles subscriber_id db <$>
            FallbackManager.get_fallback_categories issue_area
              FallbackManager.default_max_fallbacks).

(** The same two lists had the query no [LIMIT]: every fresh article of
    the topic, newest first, and the topic's followed by its fallbacks'. *)
Definition all_fresh_articles (subscriber_id : option Z) (db : Database)
    (issue_area : string) : list Article.t :=
  Article.from_dict <$>
    (DatabaseManager.row_dict <$>
       DatabaseManager.fresh_rows_ordered subscriber_id issue_area db).

Definition all_candidate_articles (subscriber_id : option Z) (db : Database)
    (issue_area : string) : list Article.t :=
  all_fresh_articles subscriber_id db issue_area ++
  concat (all_fresh_articles subscriber_id db <$>
            FallbackManager.get_fallback_categories issue_area
              FallbackManager.default_max_fallbacks).

(** What [_get_articles_with_fallback] returns, for any count. *)
Definition picked (subscriber_id : option Z) (db : Database)
    (issue_area : string) (n : Z) : list Article.t :=
  match ArticleSelector._get_articles_with_fallback subscriber_id issue_area n db with
  | Return l => l
  | Raise _ => []
  end.

(** The test [select_articles_for_subscriber] makes before it sets the
    fallback flag of a topic. *)
Definition flags_fallback (issue_area : string) (articles : list Article.t) : Prop :=
  match articles with
  | [] => True
  | _ :: _ =>
      len (filter (λ a, Article.issue_area a = issue_area) articles) < len articles
  end.

#[global] Instance flags_fallback_dec issue_area articles :
  Decision (flags_fallback issue_area articles).
Proof. unfold flags_fallback. destruct articles; apply _. Defined.

(** The ledger holds at most one record per (subscriber, article) pair. *)
Definition sends_unique (db : Database) : Prop :=
  ∀ subscriber_id article_id,
    (length (filter (λ s, s_subscriber_id s = subscriber_id ∧
                          s_article_id s = article_id)
                    (article_sends db)) ≤ 1)%nat.

(** One [record_article_send] for every article of a selection result, on
    behalf of the subscriber and under one campaign. *)
Definition record_sends (now : Z) (subscriber : Subscriber.t) (campaign_id : Z)
    (selected : gmap string (list Article.t)) (db : Database) : Database :=
  foldl (λ db article,
           (DatabaseManager.record_article_send now (Subscriber.id subscriber)
              (Article.id article) (Some campaign_id) db).2)
        db (concat (snd <$> map_to_list selected)).

(** No row of [subscribers], respectively of [articles], has the id. *)
Definition unknown_subscriber (db : Database) (subscriber_id : Z) : Prop :=
  ∀ row, row ∈ subscribers db → sub_id row ≠ subscriber_id.

Definition unknown_article (db : Database) (article_id : Z) : Prop :=
  ∀ row, row ∈ articles db → a_id row ≠ article_id.

(** ** Sample stores *)

Module Sample.

Definition article_row (id : Z) (title issue_area : string) (scraped_at : Z)
  : ArticlesRow :=
  {| a_id := id; a_url_hash := "md5:" +:+ title; a_title := title;
     a_url := "https://stories.example/" +:+ title; a_outlet := "Gazette";
     a_issue_area := issue_area; a_scraped_at := scraped_at;
     a_excluded := false |}.

Definition reader (id : Z) (topic_1 topic_2 topic_3 : string) : Subscriber.t :=
  {| Subscriber.email := "reader@example.org";
     Subscriber.issue_area_1 := topic_1;
     Subscriber.issue_area_2 := topic_2;
     Subscriber.issue_area_3 := topic_3;
     Subscriber.active := true;
     Subscriber.id := Some id;
     Subscriber.created_at := None;
     Subscriber.updated_at := None |}.

Definition reader_row (id : Z) (topic_1 topic_2 topic_3 : string) : SubscribersRow :=
  {| sub_id := id; sub_email := "reader@example.org";
     sub_issue_area_1 := topic_1; sub_issue_area_2 := topic_2;
     sub_issue_area_3 := topic_3; sub_active := true |}.

Definition store (readers : list SubscribersRow) (rows : list ArticlesRow)
    (sends : list SendsRow) (settings : gmap string string) : Database :=
  {| subscribers := readers;
     articles := rows;
     articles_seq := foldr Z.max 0 (a_id <$> rows);
     article_sends := sends;
     article_sends_seq := foldr Z.max 0 (s_id <$> sends);
     admin_settings := settings |}.

(** The scenario store: three Health stories, no Housing story, two
    Economic Development stories, one Education story. *)
Definition scenario_rows : list ArticlesRow :=
  [ article_row 1 "H3" "Health" 100;
    article_row 2 "H2" "Health" 200;
    article_row 3 "H1" "Health" 300;
    article_row 4 "E-old" "Economic Development" 150;
    article_row 5 "E-new" "Economic Development" 250;
    article_row 6 "Edu" "Education" 120 ].

Definition scenario_reader : Subscriber.t := reader 1 "Health" "Housing" "Education".

Definition scenario_store : Database :=
  DatabaseManager.init_database
    (store [reader_row 1 "Health" "Housing" "Education"] scenario_rows [] ∅).

(** The scenario store once story 3 went out to reader 1 in campaign 1. *)
Definition sent_store : Database :=
  DatabaseManager.init_database
    (store [reader_row 1 "Health" "Housing" "Education"] scenario_rows
       [ {| s_id := 1; s_subscriber_id := 1; s_article_id := 3;
            s_campaign_id := 1; s_sent_at := 400 |} ] ∅).

(** Eleven Health stories, one more than the query's [LIMIT], and nothing
    under Health's fallback topics. *)
Definition crowded_rows : list ArticlesRow :=
  [ article_row 1 "H01" "Health" 101; article_row 2 "H02" "Health" 102;
    article_row 3 "H03" "Health" 103; article_row 4 "H04" "Health" 104;
    article_row 5 "H05" "Health" 105; article_row 6 "H06" "Health" 106;
    article_row 7 "H07" "Health" 107; article_row 8 "H08" "Health" 108;
    article_row 9 "H09" "Health" 109; article_row 10 "H10" "Health" 110;
    article_row 11 "H11" "Health" 111 ].

Definition crowded_store : Database :=
  DatabaseManager.init_database
    (store [reader_row 1 "Health" "Housing" "Education"] crowded_rows [] ∅).

(** One Mental Health story and nothing else; the reader follows Health
    and Mental Health. *)
Definition overlap_reader : Subscriber.t := reader 1 "Health" "Mental Health" "Housing".

Definition overlap_store : Database :=
  DatabaseManager.init_database
    (store [reader_row 1 "Health" "Mental Health" "Housing"]
       [article_row 1 "M1" "Mental Health" 100] [] ∅).

(** The same store after the admin unticked "Enable fallback categories". *)
Definition no_fallback_store : Database :=
  DatabaseManager.set_setting "fallback_enabled" "0" overlap_store.

End Sample.

(** * More of the code *)

(** ** [AVAILABLE_ISSUE_AREAS] of [article.py] *)

Definition AVAILABLE_ISSUE_AREAS : list string :=
  [ "Education"; "Health"; "Housing"; "Environment"; "Criminal Justice";
    "Economic Development"; "Democracy & Governance"; "Immigration"; "Transportation";
    "Food Security"; "Mental Health"; "Community Development"; "Technology";
    "Energy"; "Agriculture"; "Social Services"; "Arts & Culture"; "Youth Development";
    "Senior Services"; "Public Safety"; "Infrastructure"; "Workforce Development" ].

(** ** Sorting with a comparison: [ORDER BY ... ASC], ties in scan order *)

Fixpoint insert_by {A : Type} (le : A → A → bool) (x : A) (l : list A) : list A :=
  match l with
  | [] => [x]
  | y :: l' => if le x y then x :: y :: l' else y :: insert_by le x l'
  end.

Definition order_by {A : Type} (le : A → A → bool) (l : list A) : list A :=
  foldr (insert_by le) [] l.

(** ** The [subscribers] table with all its columns *)

(** A row of [subscribers]; [created_at] is [CURRENT_TIMESTAMP] at the
    insert, [updated_at] the [datetime.now()] the code passes. *)
Record SubscriberRecord : Type := mkSubscriberRecord {
  sr_id : Z;
  sr_email : string;
  sr_issue_area_1 : string;
  sr_issue_area_2 : string;
  sr_issue_area_3 : string;
  sr_active : bool;
  sr_created_at : Z;
  sr_updated_at : Z
}.

(** The table and its [sqlite_sequence] counter. *)
Record SubscribersTable : Type := mkSubscribersTable {
  subscriber_rows : list SubscriberRecord;
  subscribers_seq : Z
}.

(** The dicts [get_subscriber_by_email] and [get_all_active_subscribers]
    build; the latter has no ['active'] key. *)
Record SubscriberDict : Type := mkSubscriberDict {
  sd_id : Z;
  sd_email : string;
  sd_issue_area_1 : string;
  sd_issue_area_2 : string;
  sd_issue_area_3 : string;
  sd_active : option bool;
  sd_created_at : Z;
  sd_updated_at : Z
}.

(** [Subscriber.from_dict] on such a dict: [data.get('active', True)], and
    both timestamps are non-empty texts, hence parsed. *)
Definition Subscriber_from_dict (data : SubscriberDict) : Subscriber.t :=
  {| Subscriber.email := sd_email data;
     Subscriber.issue_area_1 := sd_issue_area_1 data;
     Subscriber.issue_area_2 := sd_issue_area_2 data;
     Subscriber.issue_area_3 := sd_issue_area_3 data;
     Subscriber.active := default true (sd_active data);
     Subscriber.id := Some (sd_id data);
     Subscriber.created_at := Some (sd_created_at data);
     Subscriber.updated_at := Some (sd_updated_at data) |}.

Module Subscribers.

(** [add_subscriber]: [INSERT OR REPLACE] deletes the row that holds the
    UNIQUE email, if any, and inserts the new row under a new rowid;
    [active] and [created_at] take their column defaults. *)
Definition add_subscriber (current_timestamp now : Z) (email issue1 issue2 issue3 : string)
    (tbl : SubscribersTable) : bool * SubscribersTable :=
  let rowid := next_rowid (subscribers_seq tbl) (sr_id <$> subscriber_rows tbl) in
  (true,
   {| subscriber_rows :=
        filter (λ r, sr_email r ≠ email) (subscriber_rows tbl) ++
        [ {| sr_id := rowid; sr_email := email; sr_issue_area_1 := issue1;
             sr_issue_area_2 := issue2; sr_issue_area_3 := issue3;
             sr_active := true; sr_created_at := current_timestamp;
             sr_updated_at := now |} ];
      subscribers_seq := rowid |}).

(** [get_subscriber_by_email]: [fetchone()] of [WHERE email = ?]. *)
Definition get_subscriber_by_email (email : string) (tbl : SubscribersTable)
    : option SubscriberDict :=
  match head (filter (λ r, sr_email r = email) (subscriber_rows tbl)) with
  | Some row =>
      Some {| sd_id := sr_id row; sd_email := sr_email row;
              sd_issue_area_1 := sr_issue_area_1 row;
              sd_issue_area_2 := sr_issue_area_2 row;
              sd_issue_area_3 := sr_issue_area_3 row;
              sd_active := Some (sr_active row);
              sd_created_at := sr_created_at row;
              sd_updated_at := sr_updated_at row |}
  | None => None
  end.

(** [get_all_active_subscribers]: [WHERE active = 1 ORDER BY email]. *)
Definition get_all_active_subscribers (tbl : SubscribersTable) : list SubscriberDict :=
  (λ row, {| sd_id := sr_id row; sd_email := sr_email row;
             sd_issue_area_1 := sr_issue_area_1 row;
             sd_issue_area_2 := sr_issue_area_2 row;
             sd_issue_area_3 := sr_issue_area_3 row;
             sd_active := None;
             sd_created_at := sr_created_at row;
             sd_updated_at := sr_updated_at row |}) <$>
  order_by (λ r1 r2, String.leb (sr_email r1) (sr_email r2))
    (filter (λ r, sr_active r = true) (subscriber_rows tbl)).

(** [deactivate_subscriber]: the [UPDATE] and [cursor.rowcount > 0]. *)
Definition deactivate_subscriber (now : Z) (email : string) (tbl : SubscribersTable)
    : bool * SubscribersTable :=
  (bool_decide (Exists (λ r, sr_email r = email) (subscriber_rows tbl)),
   {| subscriber_rows :=
        (λ r, if decide (sr_email r = email)
              then {| sr_id := sr_id r; sr_email := sr_email r;
                      sr_issue_area_1 := sr_issue_area_1 r;
                      sr_issue_area_2 := sr_issue_area_2 r;
                      sr_issue_area_3 := sr_issue_area_3 r;
                      sr_active := false; sr_created_at := sr_created_at r;
                      sr_updated_at := now |}
              else r) <$> subscriber_rows tbl;
      subscribers_seq := subscribers_seq tbl |}).

End Subscribers.

(** ** The [email_campaigns] table *)

Record CampaignsRow : Type := mkCampaignsRow {
  c_id : Z;
  c_campaign_type : string;
  c_status : string;
  c_scheduled_for : option Z;
  c_sent_at : option Z;
  c_total_recipients : Z;
  c_articles_sent : option (list Z);
  c_created_by : string;
  c_notes : string
}.

Record CampaignsTable : Type := mkCampaignsTable {
  campaign_rows : list CampaignsRow;
  campaigns_seq : Z
}.

Module Campaigns.

(** [create_campaign]: the other columns take their defaults. *)
Definition create_campaign (campaign_type : string) (scheduled_for : option Z)
    (notes : string) (tbl : CampaignsTable) : Z * CampaignsTable :=
  let campaign_id := next_rowid (campaigns_seq tbl) (c_id <$> campaign_rows tbl) in
  (campaign_id,
   {| campaign_rows := campaign_rows tbl ++
        [ {| c_id := campaign_id; c_campaign_type := campaign_type;
             c_status := "pending"; c_scheduled_for := scheduled_for;
             c_sent_at := None; c_total_recipients := 0;
             c_articles_sent := None; c_created_by := "admin";
             c_notes := notes |} ];
      campaigns_seq := campaign_id |}).

(** [mark_campaign_sent]: [articles_sent] is the JSON text of the list. *)
Definition mark_campaign_sent (now : Z) (campaign_id total_recipients : Z)
    (articles_sent : list Z) (tbl : CampaignsTable) : CampaignsTable :=
  {| campaign_rows :=
       (λ c, if decide (c_id c = campaign_id)
             then {| c_id := c_id c; c_campaign_type := c_campaign_type c;
                     c_status := "sent"; c_scheduled_for := c_scheduled_for c;
                     c_sent_at := Some now; c_total_recipients := total_recipients;
                     c_articles_sent := Some articles_sent;
                     c_created_by := c_created_by c; c_notes := c_notes c |}
             else c) <$> campaign_rows tbl;
     campaigns_seq := campaigns_seq tbl |}.

End Campaigns.

(** ** [SolutionsStoryScraper]: the two queries on the store *)

Module SolutionsStoryScraper.

(** [timedelta(days=...)], instants counted in seconds. *)
Definition timedelta_days (days : Z) : Z := days * 86400.

(** [get_recent_articles_count]: [GROUP BY issue_area] with [COUNT], in
    [ORDER BY issue_area] order, made a dict. *)
Definition get_recent_articles_count (now days : Z) (db : Database) : gmap string Z :=
  let cutoff_date := now - timedelta_days days in
  let rows := filter (λ a, a_scraped_at a >= cutoff_date ∧ a_excluded a = false)
                     (articles db) in
  let groups := order_by String.leb (remove_dups (a_issue_area <$> rows)) in
  list_to_map
    ((λ g, (g, len (filter (λ a, a_issue_area a = g) rows))) <$> groups).

(** [cleanup_old_articles]: the [DELETE] and its [cursor.rowcount]. *)
Definition to_delete (cutoff_date : Z) (db : Database) (a : ArticlesRow) : Prop :=
  a_scraped_at a < cutoff_date ∧ a_id a ∉ (s_article_id <$> article_sends db).

#[global] Instance to_delete_dec cutoff_date db a : Decision (to_delete cutoff_date db a).
Proof. unfold to_delete. apply _. Defined.

Definition cleanup_old_articles (now days_to_keep : Z) (db : Database) : Z * Database :=
  let cutoff_date := now - timedelta_days days_to_keep in
  (len (filter (to_delete cutoff_date db) (articles db)),
   {| subscribers := subscribers db;
      articles := filter (λ a, ¬ to_delete cutoff_date db a) (articles db);
      articles_seq := articles_seq db;
      article_sends := article_sends db;
      article_sends_seq := article_sends_seq db;
      admin_settings := admin_settings db |}).

End SolutionsStoryScraper.

(** ** [EmailService]: selection and recording *)

(** The keys of a dict filled in the order of [keys]: each at the place of
    its first assignment. *)
Fixpoint first_occurrences (keys : list string) : list string :=
  match keys with
  | [] => []
  | k :: rest => k :: filter (λ k', k' ≠ k) (first_occurrences rest)
  end.

Module EmailService.

Section Rendering.

(** [_generate_html_email]: the page built from the date it prints
    ([datetime.now()]), the subscriber, the selection and the selector's
    fallback flags. *)
Variable _generate_html_email :
  Z → Subscriber.t → gmap string (list Article.t) → ArticleSelector.t → string.

(** The loops that record the sends: the items of [selected_articles] in
    the order the selector filled the dict, each article under the guard
    [if article.id]. *)
Definition record_selected (now : Z) (subscriber : Subscriber.t) (campaign_id : Z)
    (selected_articles : gmap string (list Article.t)) (db : Database) : Database :=
  foldl (λ db issue_area,
           foldl (λ db article,
                    match Article.id article with
                    | Some article_id =>
                        if decide (article_id ≠ 0)
                        then (DatabaseManager.record_article_send now
                                (Subscriber.id subscriber) (Some article_id)
                                (Some campaign_id) db).2
                        else db
                    | None => db
                    end)
                 db (default [] (selected_articles !! issue_area)))
        db (first_occurrences (Subscriber.issue_areas subscriber)).

(** [generate_newsletter_for_subscriber]: [now] is the clock of the send
    records, [rendered_at] the clock the page reads. *)
Definition generate_newsletter_for_subscriber (now rendered_at : Z)
    (subscriber : Subscriber.t)
    (campaign_id : Z) (db : Database) (selector : ArticleSelector.t)
    : outcome (option string) * Database * ArticleSelector.t :=
  match ArticleSelector.select_articles_for_subscriber subscriber
          ArticleSelector.default_articles_per_category db selector with
  | (Return selected_articles, selector') =>
      if decide (map_Forall (λ _ articles, articles = []) selected_articles)
      then (Return None, db, selector')
      else
        let db' := record_selected now subscriber campaign_id selected_articles db in
        (Return (Some (_generate_html_email rendered_at subscriber selected_articles
                         selector')),
         db', selector')
  | (Raise exc, selector') => (Raise exc, db, selector')
  end.

(** [preview_newsletter_for_subscriber]. *)
Definition preview_newsletter_for_subscriber (rendered_at : Z)
    (subscriber_email : string) (subs : SubscribersTable) (campaigns : CampaignsTable) (db : Database)
    (selector : ArticleSelector.t)
    : outcome (option string) * CampaignsTable * Database * ArticleSelector.t :=
  match Subscribers.get_subscriber_by_email subscriber_email subs with
  | None => (Return None, campaigns, db, selector)
  | Some subscriber_data =>
      let subscriber := Subscriber_from_dict subscriber_data in
      let '(temp_campaign_id, campaigns') :=
        Campaigns.create_campaign "preview" None "Preview generation" campaigns in
      match ArticleSelector.select_articles_for_subscriber subscriber
              ArticleSelector.default_articles_per_category db selector with
      | (Return selected_articles, selector') =>
          (Return (Some (_generate_html_email rendered_at subscriber selected_articles
                           selector')),
           campaigns', db, selector')
      | (Raise exc, selector') => (Raise exc, campaigns', db, selector')
      end
  end.

End Rendering.

End EmailService.

(** ** Keys of the tables, and sample rows for the further properties *)

(** The keys of [articles]: rowids and url hashes are unique, and no rowid
    is above the table's [sqlite_sequence] counter. *)
Definition articles_keyed (db : Database) : Prop :=
  NoDup (a_id <$> articles db) ∧
  NoDup (a_url_hash <$> articles db) ∧
  ∀ a, a ∈ articles db → a_id a ≤ articles_seq db.

(** The keys of [subscribers]: emails and rowids are unique, and no rowid
    is above the table's [sqlite_sequence] counter. *)
Definition subscribers_keyed (tbl : SubscribersTable) : Prop :=
  NoDup (sr_email <$> subscriber_rows tbl) ∧
  NoDup (sr_id <$> subscriber_rows tbl) ∧
  ∀ r, r ∈ subscriber_rows tbl → sr_id r ≤ subscribers_seq tbl.
(** What [generate_newsletter_for_subscriber] does with one selected
    article: [if article.id: record_article_send(...)]. *)
Definition record_one (now : Z) (subscriber : Subscriber.t) (campaign_id : Z)
    (db : Database) (article : Article.t) : Database :=
  match Article.id article with
  | Some article_id =>
      if decide (article_id ≠ 0)
      then (DatabaseManager.record_article_send now (Subscriber.id subscriber) (Some article_id)
              (Some campaign_id) db).2
      else db
  | None => db
  end.

(** Sample rows of the subscribers table, and a stand-in for the digest. *)
Module Desk.

Definition digest (url : string) : string := "md5:" +:+ url.

Definition readers : SubscribersTable :=
  {| subscriber_rows :=
       [ {| sr_id := 1; sr_email := "reader@example.org";
            sr_issue_area_1 := "Health"; sr_issue_area_2 := "Housing";
            sr_issue_area_3 := "Education"; sr_active := true;
            sr_created_at := 10; sr_updated_at := 10 |};
         {| sr_id := 2; sr_email := "gone@example.org";
            sr_issue_area_1 := "Energy"; sr_issue_area_2 := "Housing";
            sr_issue_area_3 := "Technology"; sr_active := false;
            sr_created_at := 20; sr_updated_at := 30 |} ];
     subscribers_seq := 2 |}.

Definition page (rendered_at : Z) (subscriber : Subscriber.t) (selected : gmap string (list Article.t))
    (selector : ArticleSelector.t) : string :=
  "<html>" +:+ Subscriber.email subscriber +:+ "</html>".

End Desk.

(** * Facts about the embedding *)

(** ** Calls that return *)

Lemma outcome_bind_return {A B : Type} (a : A) (k : A → outcome B) :
  (Return a ≫= k) = k a.
Proof. reflexivity. Qed.

(** ** Slices and prefixes *)

Section Slices.
Context {A : Type}.
Implicit Types l k : list A.

Lemma slice_to_nonneg (n : Z) l : 0 ≤ n → slice_to n l = take (Z.to_nat n) l.
Proof. intros Hn. unfold slice_to. by rewrite decide_True. Qed.

Lemma take_take_app (n : nat) l k : take n (take n l ++ k) = take n (l ++ k).
Proof.
  destruct (decide (n ≤ length l)%nat) as [Hle|Hgt].
  - rewrite (take_app_le l k n) by done.
    rewrite take_app_le by (rewrite length_take; lia).
    by rewrite take_take, Nat.min_id.
  - by rewrite (take_ge l n) by lia.
Qed.

(** A cap of at least [n] on the lists does not show in the first [n]. *)
Lemma take_take_le_app (n m : nat) l k :
  (n ≤ m)%nat → take n (take m l ++ k) = take n (l ++ k).
Proof.
  intros Hnm. destruct (decide (m ≤ length l)%nat) as [Hle|Hgt].
  - rewrite take_app_le by (rewrite length_take; lia).
    rewrite take_take, Nat.min_l by done.
    by rewrite (take_app_le l k) by lia.
  - by rewrite (take_ge l m) by lia.
Qed.

Lemma take_concat_capped (n m : nat) l (ks : list (list A)) :
  (n ≤ m)%nat →
  take n (l ++ concat (take m <$> ks)) = take n (l ++ concat ks).
Proof.
  intros Hnm. revert l. induction ks as [|k ks IH]; intros l; [done|].
  cbn [fmap list_fmap concat]. rewrite !app_assoc, IH, <- !app_assoc.
  rewrite !(take_app l). f_equal. apply take_take_le_app. lia.
Qed.

Lemma slice_to_subseteq (n : Z) l : slice_to n l ⊆ l.
Proof. unfold slice_to. case_decide; apply subseteq_take. Qed.

End Slices.

(** ** [ORDER BY ... DESC] *)

Section OrderBy.
Context {A : Type} (key : A → Z).
Local Abbreviation newest_first := (newest_first key).

Lemma insert_desc_elem_of x y l : y ∈ insert_desc key x l ↔ y = x ∨ y ∈ l.
Proof.
  induction l as [|z l IH]; simpl.
  - by rewrite list_elem_of_singleton, elem_of_nil; intuition.
  - case_decide; rewrite !elem_of_cons; [rewrite IH|]; intuition.
Qed.

Lemma order_by_desc_elem_of y l : y ∈ order_by_desc key l ↔ y ∈ l.
Proof.
  induction l as [|x l IH]; simpl; [done|].
  rewrite insert_desc_elem_of, elem_of_cons, IH. done.
Qed.

Lemma insert_desc_length x l : length (insert_desc key x l) = S (length l).
Proof. induction l as [|z l IH]; simpl; [done|]. case_decide; simpl; lia. Qed.

Lemma order_by_desc_length l : length (order_by_desc key l) = length l.
Proof.
  induction l as [|x l IH]; simpl; [done|]. by rewrite insert_desc_length, IH.
Qed.

Lemma insert_desc_sorted x l : newest_first l → newest_first (insert_desc key x l).
Proof.
  unfold newest_first. induction 1 as [|z l Hs IH Hall]; simpl.
  - repeat constructor.
  - case_decide as Hlt.
    + constructor; [done|].
      apply Forall_forall. intros y Hy%insert_desc_elem_of.
      destruct Hy as [->|Hy]; [lia|].
      rewrite Forall_forall in Hall. by apply Hall.
    + constructor; [by constructor|].
      constructor; [lia|].
      eapply Forall_impl; [exact Hall|]. simpl. intros; lia.
Qed.

Lemma order_by_desc_sorted l : newest_first (order_by_desc key l).
Proof.
  induction l as [|x l IH]; simpl; [constructor|]. by apply insert_desc_sorted.
Qed.

Lemma newest_first_take n l : newest_first l → newest_first (take n l).
Proof.
  unfold newest_first. intros Hs. rewrite <- (take_drop n l) in Hs.
  by apply StronglySorted_app_1_l in Hs.
Qed.

(** What a [LIMIT] cuts off is no newer than what it keeps. *)
Lemma newest_first_cut n l x y :
  newest_first l → x ∈ take n l → y ∈ drop n l → key y ≤ key x.
Proof.
  unfold newest_first. intros Hs Hx Hy. rewrite <- (take_drop n l) in Hs.
  by apply (StronglySorted_app_1_elem_of _ _ _ x y) in Hs.
Qed.

End OrderBy.

(** ** The fresh-articles query *)

Section FreshQuery.
Import DatabaseManager.
Implicit Types (db : Database) (a : ArticlesRow) (s : SendsRow).

Lemma left_join_sends_elem_of subscriber_id db a (o : option SendsRow) :
  (a, o) ∈ left_join_sends subscriber_id db ↔
  a ∈ articles db ∧
  match o with
  | None => ∀ s, s ∈ article_sends db → ¬ join_on subscriber_id a s
  | Some s => s ∈ article_sends db ∧ join_on subscriber_id a s
  end.
Proof.
  unfold left_join_sends. rewrite list_elem_of_bind. split.
  - intros (a' & Hin & Ha').
    destruct (filter (join_on subscriber_id a') (article_sends db))
      as [|s0 ms] eqn:Hf.
    + apply list_elem_of_singleton in Hin. injection Hin as -> ->.
      split; [done|]. intros s Hs Hj.
      exact (filter_nil_not_elem_of _ _ s Hf Hj Hs).
    + apply list_elem_of_fmap in Hin as (s & Heq & Hs).
      injection Heq as -> ->. split; [done|].
      rewrite <- Hf in Hs. apply list_elem_of_filter in Hs. tauto.
  - intros [Ha Ho]. exists a. split; [|done].
    destruct (filter (join_on subscriber_id a) (article_sends db))
      as [|s0 ms] eqn:Hf.
    + destruct o as [s|]; [|by apply list_elem_of_singleton].
      destruct Ho as [Hs Hj].
      destruct (filter_nil_not_elem_of _ _ s Hf Hj Hs).
    + destruct o as [s|].
      * apply list_elem_of_fmap. exists s. split; [done|].
        rewrite <- Hf. apply list_elem_of_filter. tauto.
      * exfalso. assert (Hs0 : s0 ∈ filter (join_on subscriber_id a) (article_sends db))
          by (rewrite Hf; left).
        apply list_elem_of_filter in Hs0 as [Hj Hs0]. by apply (Ho s0).
Qed.

Lemma where_fresh_elem_of subscriber_id issue_area db a :
  a ∈ (fst <$> filter (where_fresh issue_area) (left_join_sends subscriber_id db)) ↔
  is_fresh subscriber_id issue_area db a.
Proof.
  rewrite list_elem_of_fmap. unfold is_fresh, has_send. split.
  - intros ([a' o] & -> & Hin). simpl.
    apply list_elem_of_filter in Hin as [(Hia & Hex & Ho) Hin].
    simpl in *. subst o. apply left_join_sends_elem_of in Hin as [Ha Hno].
    repeat split; try done.
    intros sid -> (s & Hs & Hsid & Haid). apply (Hno s Hs).
    unfold join_on. by rewrite Hsid, Haid.
  - intros (Ha & Hia & Hex & Hno). exists (a, None). split; [done|].
    apply list_elem_of_filter. split; [done|].
    apply left_join_sends_elem_of. split; [done|].
    intros s Hs [Haid Hsid]. apply (Hno (s_subscriber_id s)); [done|].
    by exists s.
Qed.

Lemma fresh_rows_elem_of subscriber_id issue_area db a :
  a ∈ fresh_rows subscriber_id issue_area db → is_fresh subscriber_id issue_area db a.
Proof.
  unfold fresh_rows, fresh_rows_ordered. intros Hin%subseteq_take.
  by apply order_by_desc_elem_of, where_fresh_elem_of in Hin.
Qed.

Lemma fresh_rows_length subscriber_id issue_area db :
  (length (fresh_rows subscriber_id issue_area db) ≤ fresh_limit)%nat.
Proof. unfold fresh_rows. rewrite length_take. lia. Qed.

Lemma fresh_rows_sorted subscriber_id issue_area db :
  newest_first a_scraped_at (fresh_rows subscriber_id issue_area db).
Proof. apply newest_first_take, order_by_desc_sorted. Qed.

(** A fresh row the [LIMIT] dropped is no newer than any row returned. *)
Lemma fresh_rows_newest subscriber_id issue_area db a b :
  a ∈ fresh_rows subscriber_id issue_area db →
  is_fresh subscriber_id issue_area db b →
  b ∉ fresh_rows subscriber_id issue_area db →
  a_scraped_at b ≤ a_scraped_at a.
Proof.
  unfold fresh_rows, fresh_rows_ordered. intros Ha Hb Hnb.
  set (l := order_by_desc a_scraped_at _) in *.
  assert (Hbl : b ∈ l) by by apply order_by_desc_elem_of, where_fresh_elem_of.
  rewrite <- (take_drop fresh_limit l) in Hbl.
  apply elem_of_app in Hbl as [Hbl|Hbl]; [done|].
  eapply (newest_first_cut a_scraped_at); [apply order_by_desc_sorted|done..].
Qed.

End FreshQuery.

(** ** The selector *)

Section SelectorFacts.
Import DatabaseManager ArticleSelector.
Variables (subscriber_id : option Z) (db : Database).
Local Abbreviation fresh_articles := (fresh_articles subscriber_id db).
Local Abbreviation candidate_articles := (candidate_articles subscriber_id db).
Local Abbreviation picked := (picked subscriber_id db).

Lemma fresh_map_lookup_gen (issue_areas : list string)
    (acc : gmap string (list ArticleDict)) (c : string) :
  foldl (λ m issue_area,
           <[issue_area := row_dict <$> fresh_rows subscriber_id issue_area db]> m)
        acc issue_areas !! c =
  if decide (c ∈ issue_areas)
  then Some (row_dict <$> fresh_rows subscriber_id c db)
  else acc !! c.
Proof.
  revert acc. induction issue_areas as [|x l IH]; intros acc.
  - simpl. by destruct (decide (c ∈ [])) as [?%elem_of_nil|].
  - cbn [foldl]. rewrite IH. destruct (decide (c ∈ l)) as [Hl|Hl].
    + by rewrite decide_True by (by right).
    + destruct (decide (c = x)) as [->|Hne].
      * rewrite lookup_insert_eq. by rewrite decide_True by left.
      * rewrite lookup_insert_ne by done.
        rewrite decide_False; [done|]. rewrite elem_of_cons. tauto.
Qed.

(** The store answers for every requested topic, with an empty list when
    nothing matches, and for no other. *)
Lemma get_fresh_articles_lookup (issue_areas : list string) :
  ∃ m, get_fresh_articles_for_subscriber subscriber_id issue_areas db = Return m ∧
       ∀ c, m !! c = if decide (c ∈ issue_areas)
                     then Some (row_dict <$> fresh_rows subscriber_id c db)
                     else None.
Proof.
  eexists. split; [reflexivity|]. intros c.
  by rewrite fresh_map_lookup_gen, lookup_empty.
Qed.

Lemma fallback_loop_prefix (abc : gmap string (list ArticleDict)) (n : Z)
    (cats : list string) (sel : list Article.t) :
  0 ≤ n →
  (∀ c, c ∈ cats → abc !! c = Some (row_dict <$> fresh_rows subscriber_id c db)) →
  len sel ≤ n →
  fallback_loop abc n cats sel =
  take (Z.to_nat n) (sel ++ concat (fresh_articles <$> cats)).
Proof.
  intros Hn. revert sel.
  induction cats as [|c cats IH]; intros sel Habc Hsel;
    cbn [fallback_loop fmap list_fmap concat].
  - rewrite app_nil_r, take_ge; [done|]. unfold len in Hsel. lia.
  - case_decide as Hfull.
    + rewrite take_app_le by (unfold len in *; lia).
      rewrite take_ge; [done|]. unfold len in *. lia.
    + rewrite (Habc c) by left. cbn [default from_option id].
      rewrite slice_to_nonneg by lia.
      rewrite fmap_take. fold (fresh_articles c).
      rewrite IH; cycle 1.
      * intros c' Hc'. apply Habc. by right.
      * unfold len in *. rewrite length_app, length_take. lia.
      * rewrite <- !app_assoc.
        rewrite !(take_app_ge sel) by (unfold len in *; lia).
        f_equal.
        replace (Z.to_nat (n - len sel)) with (Z.to_nat n - length sel)%nat
          by (unfold len; lia).
        apply take_take_app.
Qed.

(** [_get_articles_with_fallback] never raises and, for a count that is
    not negative, returns the first [needed_count] candidates. *)
Lemma get_articles_with_fallback_prefix (primary_category : string) (n : Z) :
  0 ≤ n →
  _get_articles_with_fallback subscriber_id primary_category n db =
  Return (take (Z.to_nat n) (candidate_articles primary_category)).
Proof.
  intros Hn. unfold _get_articles_with_fallback, candidate_articles.
  destruct (get_fresh_articles_lookup
              (FallbackManager.get_all_related_categories primary_category))
    as (abc & -> & Habc).
  rewrite outcome_bind_return.
  assert (Hrel : ∀ c, c ∈ FallbackManager.get_all_related_categories primary_category →
             abc !! c = Some (row_dict <$> fresh_rows subscriber_id c db)).
  { intros c Hc. by rewrite Habc, decide_True. }
  rewrite (Hrel primary_category) by left.
  cbn [default from_option id].
  rewrite slice_to_nonneg by done.
  rewrite fmap_take. fold (fresh_articles primary_category).
  case_decide as Hshort.
  - rewrite fallback_loop_prefix; [| done | | ].
    + by rewrite take_take_app.
    + intros c Hc. apply Hrel. by right.
    + unfold len. rewrite length_take. lia.
  - f_equal. rewrite take_app_le; [done|].
    unfold len in Hshort. rewrite length_take in Hshort. lia.
Qed.

Lemma get_articles_with_fallback_returns (issue_area : string) (n : Z) :
  _get_articles_with_fallback subscriber_id issue_area n db =
  Return (picked issue_area n).
Proof.
  unfold picked.
  destruct (_get_articles_with_fallback subscriber_id issue_area n db) eqn:E; [done|].
  unfold _get_articles_with_fallback in E.
  destruct (get_fresh_articles_lookup
              (FallbackManager.get_all_related_categories issue_area))
    as (abc & Heq & _).
  rewrite Heq, outcome_bind_return in E. by case_decide.
Qed.

Lemma picked_prefix (issue_area : string) (n : Z) :
  0 ≤ n → picked issue_area n = take (Z.to_nat n) (candidate_articles issue_area).
Proof.
  intros Hn. unfold picked. by rewrite get_articles_with_fallback_prefix.
Qed.

Lemma fallback_loop_elem_of (abc : gmap string (list ArticleDict)) (n : Z)
    (cats : list string) (sel : list Article.t) (a : Article.t) :
  a ∈ fallback_loop abc n cats sel →
  a ∈ sel ∨ ∃ c d, c ∈ cats ∧ abc !! c = Some d ∧ a ∈ (Article.from_dict <$> d).
Proof.
  revert sel. induction cats as [|c cats IH]; intros sel; cbn [fallback_loop].
  - by left.
  - case_decide; [by left|]. intros [Hin|(c' & d & Hc' & Hd & Hin)]%IH.
    + apply elem_of_app in Hin as [Hin|Hin]; [by left|]. right.
      destruct (abc !! c) as [d|] eqn:Hd; cbn [default from_option id] in Hin.
      * exists c, d. split; [left|]. split; [done|].
        apply list_elem_of_fmap in Hin as (x & -> & Hx).
        apply list_elem_of_fmap. exists x. split; [done|].
        by apply (slice_to_subseteq (n - len sel)).
      * apply list_elem_of_fmap in Hin as (x & _ & Hx).
        pose proof (slice_to_subseteq (n - len sel) [] x Hx) as Hnil.
        by apply elem_of_nil in Hnil.
    + right. exists c', d. split; [by right|done].
Qed.

(** Every article handed out is a row the fresh query returned for the
    topic or for one of its fallbacks. *)
Lemma picked_elem_of (issue_area : string) (n : Z) (a : Article.t) :
  a ∈ picked issue_area n →
  ∃ c row, c ∈ FallbackManager.get_all_related_categories issue_area ∧
           row ∈ fresh_rows subscriber_id c db ∧
           a = Article.from_dict (row_dict row).
Proof.
  unfold picked, _get_articles_with_fallback.
  destruct (get_fresh_articles_lookup
              (FallbackManager.get_all_related_categories issue_area))
    as (abc & -> & Habc).
  rewrite outcome_bind_return.
  assert (Hsrc : ∀ c d x, abc !! c = Some d → x ∈ (Article.from_dict <$> d) →
    ∃ c row, c ∈ FallbackManager.get_all_related_categories issue_area ∧
             row ∈ fresh_rows subscriber_id c db ∧
             x = Article.from_dict (row_dict row)).
  { intros c d x Hd Hx. rewrite Habc in Hd. case_decide as Hc; [|done].
    injection Hd as <-. rewrite <- list_fmap_compose in Hx.
    apply list_elem_of_fmap in Hx as (row & -> & Hrow). by exists c, row. }
  assert (Hprim : ∀ x,
    x ∈ (Article.from_dict <$> slice_to n (default [] (abc !! issue_area))) →
    ∃ c row, c ∈ FallbackManager.get_all_related_categories issue_area ∧
             row ∈ fresh_rows subscriber_id c db ∧
             x = Article.from_dict (row_dict row)).
  { intros x Hx. destruct (abc !! issue_area) as [d|] eqn:Hd;
      cbn [default from_option id] in Hx;
      apply list_elem_of_fmap in Hx as (y & -> & Hy);
      apply slice_to_subseteq in Hy.
    - apply (Hsrc issue_area d); [done|]. apply list_elem_of_fmap. by exists y.
    - by apply elem_of_nil in Hy. }
  case_decide; [|by apply Hprim].
  intros [Hin|(c & d & _ & Hd & Hin)]%fallback_loop_elem_of.
  - by apply Hprim.
  - by apply (Hsrc c d).
Qed.

(** The loop of [select_articles_for_subscriber] runs through: every topic
    of the subscriber gets its list, and a flag when the test says so. *)
Lemma select_loop_returns (n : Z) (issue_areas : list string)
    (selected : gmap string (list Article.t)) (fallback_used : gmap string bool) :
  ∃ selected' fallback_used',
    select_loop subscriber_id n db issue_areas selected fallback_used =
      Return (selected', fallback_used') ∧
    (∀ T, selected' !! T =
            if decide (T ∈ issue_areas) then Some (picked T n) else selected !! T) ∧
    (∀ T, fallback_used' !! T =
            if decide (T ∈ issue_areas ∧ flags_fallback T (picked T n))
            then Some true else fallback_used !! T).
Proof.
  revert selected fallback_used.
  induction issue_areas as [|ia rest IH]; intros selected fallback_used;
    cbn [select_loop].
  - eexists _, _. split; [done|]. split; intros T.
    + by destruct (decide (T ∈ [])) as [?%elem_of_nil|].
    + by destruct (decide (T ∈ [] ∧ _)) as [[?%elem_of_nil _]|].
  - rewrite get_articles_with_fallback_returns, outcome_bind_return.
    pose proof (eq_refl : flags_fallback ia (picked ia n) = _) as Hflag.
    unfold flags_fallback at 2 in Hflag.
    destruct (picked ia n) as [|a l] eqn:Hp.
    + destruct (IH (<[ia := []]> selected) (<[ia := true]> fallback_used))
        as (s' & f' & -> & Hs & Hf).
      exists s', f'. split; [done|]. split; intros T.
      * rewrite Hs. destruct (decide (T = ia)) as [->|Hne].
        -- rewrite lookup_insert_eq, (decide_True (P := ia ∈ ia :: rest)) by left.
           rewrite Hp. by case_decide.
        -- rewrite lookup_insert_ne by done.
           destruct (decide (T ∈ rest)) as [Hr|Hr].
           ++ by rewrite decide_True by (by right).
           ++ rewrite decide_False; [done|]. rewrite elem_of_cons. tauto.
      * rewrite Hf. destruct (decide (T = ia)) as [->|Hne].
        -- rewrite lookup_insert_eq.
           rewrite (decide_True (P := ia ∈ ia :: rest ∧ _))
             by (split; [left|by rewrite Hp]).
           by case_decide.
        -- rewrite lookup_insert_ne by done.
           destruct (decide (T ∈ rest ∧ _)) as [[Hr Hfl]|Hr].
           ++ by rewrite decide_True by (split; [by right|done]).
           ++ rewrite decide_False; [done|]. rewrite elem_of_cons. tauto.
    + match goal with
      | |- context [select_loop _ _ _ rest ?s ?f] =>
          destruct (IH s f) as (s' & f' & -> & Hs & Hf)
      end.
      exists s', f'. split; [done|]. split; intros T.
      * rewrite Hs. destruct (decide (T = ia)) as [->|Hne].
        -- rewrite lookup_insert_eq, (decide_True (P := ia ∈ ia :: rest)) by left.
           rewrite Hp. by destruct (decide (ia ∈ rest)).
        -- rewrite lookup_insert_ne by done.
           destruct (decide (T ∈ rest)) as [Hr|Hr].
           ++ by rewrite decide_True by (by right).
           ++ rewrite decide_False; [done|]. rewrite elem_of_cons. tauto.
      * rewrite Hf. destruct (decide (T = ia)) as [->|Hne].
        -- rewrite Hp.
           destruct (decide (len (filter (λ a0, Article.issue_area a0 = ia) (a :: l))
                             < len (a :: l))) as [Hlt|Hlt].
           ++ rewrite lookup_insert_eq.
              rewrite (decide_True (P := ia ∈ ia :: rest ∧ _))
                by (split; [left|by rewrite Hflag]).
              by destruct (decide (ia ∈ rest ∧ _)).
           ++ destruct (decide (ia ∈ rest ∧ _)) as [[_ Hfl]|Hr];
                [by rewrite Hflag in Hfl|].
              rewrite decide_False; [done|]. rewrite Hflag. tauto.
        -- assert (Hother : ∀ f0 : gmap string bool,
                     (if decide (len (filter (λ a0, Article.issue_area a0 = ia) (a :: l))
                                 < len (a :: l))
                      then <[ia := true]> f0 else f0) !! T = f0 !! T).
           { intros f0.
             destruct (decide (len (filter (λ a0, Article.issue_area a0 = ia) (a :: l))
                               < len (a :: l)));
               [by rewrite lookup_insert_ne|done]. }
           rewrite Hother.
           destruct (decide (T ∈ rest ∧ _)) as [[Hr Hfl]|Hr].
           ++ by rewrite decide_True by (split; [by right|done]).
           ++ rewrite decide_False; [done|]. rewrite elem_of_cons. tauto.
Qed.

(** The candidates are the articles of the store, each list cut at the
    [LIMIT]; the cut does not show in the first [fresh_limit] of them. *)
Lemma fresh_articles_capped (issue_area : string) :
  fresh_articles issue_area =
  take fresh_limit (all_fresh_articles subscriber_id db issue_area).
Proof. unfold all_fresh_articles. by rewrite <- !fmap_take. Qed.

Lemma candidate_articles_capped (issue_area : string) (n : nat) :
  (n ≤ fresh_limit)%nat →
  take n (candidate_articles issue_area) =
  take n (all_candidate_articles subscriber_id db issue_area).
Proof.
  intros Hn. unfold all_candidate_articles.
  rewrite <- (take_take_le_app n fresh_limit) by done.
  rewrite <- (take_concat_capped n fresh_limit) by done.
  rewrite <- fresh_articles_capped, <- list_fmap_compose.
  unfold candidate_articles. do 3 f_equal. apply list_fmap_ext.
  intros _ c _. apply fresh_articles_capped.
Qed.

End SelectorFacts.

Section SelectFacts.
Import DatabaseManager ArticleSelector.

(** [select_articles_for_subscriber] returns: a list for each topic of
    the subscriber and for no other, and the flags of the loop as the new
    [last_fallback_usage]. *)
Lemma select_returns (subscriber : Subscriber.t) (n : Z) (db : Database) (self : t) :
  ∃ selected fallback_used,
    select_articles_for_subscriber subscriber n db self =
      (Return selected, {| last_fallback_usage := Some fallback_used |}) ∧
    (∀ T, selected !! T =
            if decide (T ∈ Subscriber.issue_areas subscriber)
            then Some (picked (Subscriber.id subscriber) db T n) else None) ∧
    (∀ T, fallback_used !! T =
            if decide (T ∈ Subscriber.issue_areas subscriber ∧
                       flags_fallback T (picked (Subscriber.id subscriber) db T n))
            then Some true else None).
Proof.
  unfold select_articles_for_subscriber.
  destruct (select_loop_returns (Subscriber.id subscriber) db n
              (Subscriber.issue_areas subscriber) ∅ ∅)
    as (s & f & -> & Hs & Hf).
  exists s, f. split; [done|]. split; intros T.
  - by rewrite Hs, lookup_empty.
  - by rewrite Hf, lookup_empty.
Qed.

Lemma select_lookup_Some subscriber n db self selected self' T l :
  select_articles_for_subscriber subscriber n db self = (Return selected, self') →
  selected !! T = Some l →
  T ∈ Subscriber.issue_areas subscriber ∧ l = picked (Subscriber.id subscriber) db T n.
Proof.
  destruct (select_returns subscriber n db self) as (s & f & -> & Hs & _).
  intros [= <- _]. rewrite Hs. case_decide; [|done]. by intros [= <-].
Qed.

(** The flag test in words: the list is empty, or one of its articles is
    filed under another topic. *)
Lemma length_filter_lt_iff {A : Type} (P : A → Prop) `{!∀ x, Decision (P x)}
    (l : list A) :
  (length (filter P l) < length l)%nat ↔ ∃ x, x ∈ l ∧ ¬ P x.
Proof.
  induction l as [|x l IH].
  - cbn. split; [lia|]. by intros (y & Hy%elem_of_nil & _).
  - rewrite filter_cons. destruct (decide (P x)) as [Hx|Hx]; cbn [length].
    + rewrite <- Nat.succ_lt_mono, IH. split.
      * intros (y & Hy & Hny). exists y. split; [by right|done].
      * intros (y & [->|Hy]%elem_of_cons & Hny); [done|]. by exists y.
    + pose proof (length_filter P l). split; [|lia].
      intros _. exists x. split; [left|done].
Qed.

Lemma flags_fallback_iff (issue_area : string) (l : list Article.t) :
  flags_fallback issue_area l ↔
  l = [] ∨ ∃ a, a ∈ l ∧ Article.issue_area a ≠ issue_area.
Proof.
  unfold flags_fallback. destruct l as [|a l].
  - split; [by left|done].
  - unfold len. rewrite <- Nat2Z.inj_lt, length_filter_lt_iff.
    split; [by right|]. by intros [?|?].
Qed.

End SelectFacts.

(** ** What a selection reads *)

Section ReadSet.
Import DatabaseManager ArticleSelector.
Variables (db1 db2 : Database).
Hypothesis same_articles : articles db1 = articles db2.
Hypothesis same_sends : article_sends db1 = article_sends db2.

Lemma fresh_rows_ext subscriber_id issue_area :
  fresh_rows subscriber_id issue_area db1 = fresh_rows subscriber_id issue_area db2.
Proof.
  unfold fresh_rows, fresh_rows_ordered, left_join_sends.
  by rewrite same_articles, same_sends.
Qed.

Lemma get_fresh_articles_ext subscriber_id issue_areas :
  get_fresh_articles_for_subscriber subscriber_id issue_areas db1 =
  get_fresh_articles_for_subscriber subscriber_id issue_areas db2.
Proof.
  destruct (get_fresh_articles_lookup subscriber_id db1 issue_areas) as (m1 & -> & H1).
  destruct (get_fresh_articles_lookup subscriber_id db2 issue_areas) as (m2 & -> & H2).
  f_equal. apply map_eq. intros c. by rewrite H1, H2, fresh_rows_ext.
Qed.

Lemma picked_ext subscriber_id issue_area n :
  picked subscriber_id db1 issue_area n = picked subscriber_id db2 issue_area n.
Proof.
  unfold picked, _get_articles_with_fallback. by rewrite get_fresh_articles_ext.
Qed.

End ReadSet.

(** A key column identifies its row. *)
Lemma NoDup_fmap_elem_of_inj {A B : Type} (f : A → B) (l : list A) (x y : A) :
  NoDup (f <$> l) → x ∈ l → y ∈ l → f x = f y → x = y.
Proof.
  induction l as [|z l IH]; [by intros _ ?%elem_of_nil|].
  rewrite fmap_cons, NoDup_cons, !elem_of_cons.
  intros [Hz Hnd] [->|Hx] [->|Hy] Heq; [done| | |by apply IH].
  - destruct Hz. rewrite Heq. by apply list_elem_of_fmap_2.
  - destruct Hz. rewrite <- Heq. by apply list_elem_of_fmap_2.
Qed.

(** ** The send ledger *)

Section Ledger.
Import DatabaseManager.
Implicit Types (db : Database) (subscriber_id article_id campaign_id : option Z).

(** The pair filter of the UNIQUE check lets a row through exactly when the
    row is a send record of the pair. *)
Lemma has_send_filter db sid aid :
  has_send db sid aid ↔
  filter (λ s, s_subscriber_id s = sid ∧ s_article_id s = aid) (article_sends db) ≠ [].
Proof.
  unfold has_send. split.
  - intros (s & Hs & Hsid & Haid) Hnil.
    by apply (filter_nil_not_elem_of _ _ s Hnil).
  - destruct (filter _ _) as [|s l] eqn:Hf; [done|]. intros _.
    assert (Hs : s ∈ filter (λ s, s_subscriber_id s = sid ∧ s_article_id s = aid)
                   (article_sends db)) by (rewrite Hf; left).
    apply list_elem_of_filter in Hs as [[? ?] ?]. by exists s.
Qed.

Lemma record_article_send_returns now subscriber_id article_id campaign_id db :
  (record_article_send now subscriber_id article_id campaign_id db).1 = Return ().
Proof.
  unfold record_article_send.
  destruct subscriber_id, article_id, campaign_id; try done.
  by destruct (filter _ _).
Qed.

(** Only the ledger is written. *)
Lemma record_article_send_articles now subscriber_id article_id campaign_id db :
  articles (record_article_send now subscriber_id article_id campaign_id db).2 =
  articles db.
Proof.
  unfold record_article_send.
  destruct subscriber_id, article_id, campaign_id; try done.
  by destruct (filter _ _).
Qed.

(** A pair already on record is skipped. *)
Lemma record_article_send_present now sid aid campaign_id db :
  has_send db sid aid →
  record_article_send now (Some sid) (Some aid) campaign_id db =
    (Return (), ignored_sends_insert db).
Proof.
  intros Hs%has_send_filter. unfold record_article_send.
  destruct campaign_id; [|done]. by destruct (filter _ _).
Qed.

(** Records are never taken out. *)
Lemma record_article_send_mono now subscriber_id article_id campaign_id db sid aid :
  has_send db sid aid →
  has_send (record_article_send now subscriber_id article_id campaign_id db).2 sid aid.
Proof.
  intros (s & Hs & Hsid & Haid). unfold record_article_send.
  destruct subscriber_id, article_id, campaign_id; try by exists s.
  destruct (filter _ _); [|by exists s].
  exists s. cbn. split; [|done]. apply elem_of_app. by left.
Qed.

(** After the call the pair is on record. *)
Lemma record_article_send_recorded now sid aid cid db :
  has_send (record_article_send now (Some sid) (Some aid) (Some cid) db).2 sid aid.
Proof.
  unfold record_article_send.
  destruct (filter (λ s, s_subscriber_id s = sid ∧ s_article_id s = aid)
              (article_sends db)) as [|s0 l0] eqn:Hf.
  - eexists. cbn. split; [apply elem_of_app; right; left|done].
  - cbn [snd]. apply has_send_filter. cbn [ignored_sends_insert article_sends].
    by rewrite Hf.
Qed.

Lemma record_article_send_unique now subscriber_id article_id campaign_id db :
  sends_unique db →
  sends_unique (record_article_send now subscriber_id article_id campaign_id db).2.
Proof.
  intros Hu. unfold record_article_send.
  destruct subscriber_id as [sid|], article_id as [aid|], campaign_id as [cid|];
    try done.
  destruct (filter _ _) eqn:Hf; [|done].
  intros S A. cbn. rewrite filter_app, length_app, filter_cons, filter_nil.
  destruct (decide (_ ∧ _)) as [[HS HA]|_]; cbn in *.
  - subst S A. rewrite Hf. cbn. lia.
  - specialize (Hu S A). lia.
Qed.

Lemma record_sends_mono now subscriber cid (l : list Article.t) db sid aid :
  has_send db sid aid →
  has_send
    (foldl (λ db article,
              (record_article_send now (Subscriber.id subscriber)
                 (Article.id article) (Some cid) db).2) db l) sid aid.
Proof.
  revert db. induction l as [|a l IH]; intros db Hs; [done|].
  cbn [foldl]. by apply IH, record_article_send_mono.
Qed.

(** Once [record_sends] is through, every article of the selection that
    has an id is on record for the subscriber. *)
Lemma record_sends_recorded now subscriber sid cid
    (selected : gmap string (list Article.t)) db T l a aid :
  Subscriber.id subscriber = Some sid →
  selected !! T = Some l → a ∈ l → Article.id a = Some aid →
  has_send (record_sends now subscriber cid selected db) sid aid.
Proof.
  intros Hsid Hl Ha Haid. unfold record_sends.
  assert (Hin : a ∈ concat ((map_to_list selected).*2)).
  { apply list_elem_of_In, in_concat. exists l.
    split; [|by apply list_elem_of_In]. apply list_elem_of_In, list_elem_of_fmap.
    exists (T, l). split; [done|]. by apply elem_of_map_to_list. }
  revert db. induction (concat ((map_to_list selected).*2)) as [|b l' IH];
    intros db; [by apply elem_of_nil in Hin|].
  cbn [foldl]. apply elem_of_cons in Hin as [<-|Hin]; [|by apply IH].
  apply record_sends_mono. rewrite Hsid, Haid.
  apply record_article_send_recorded.
Qed.

Lemma record_sends_articles now subscriber cid
    (selected : gmap string (list Article.t)) db :
  articles (record_sends now subscriber cid selected db) = articles db.
Proof.
  unfold record_sends. generalize (concat ((map_to_list selected).*2)).
  intros l. revert db. induction l as [|a l IH]; intros db; [done|].
  cbn [foldl]. by rewrite IH, record_article_send_articles.
Qed.

Lemma sends_unique_empty : sends_unique empty_database.
Proof. intros S A. cbn. lia. Qed.

(** Whatever is recorded from the empty ledger on, the pairs stay unique. *)
Lemma sends_unique_reachable (calls : list (Z * option Z * option Z * option Z)) :
  sends_unique
    (foldl (λ db call,
              (record_article_send call.1.1.1 call.1.1.2 call.1.2 call.2 db).2)
           (init_database empty_database) calls).
Proof.
  assert (H0 : sends_unique (init_database empty_database)) by apply sends_unique_empty.
  revert H0. generalize (init_database empty_database).
  induction calls as [|c calls IH]; intros db Hdb; [done|].
  cbn [foldl]. by apply IH, record_article_send_unique.
Qed.

End Ledger.

(** ** No repeats *)

Section NoRepeat.
Import DatabaseManager ArticleSelector.

(** An article selected from a store has no send record there; so a store
    whose ledger has the pair cannot hand the article out again. *)
Lemma selected_not_sent subscriber sid n db self selected self' T l a aid :
  Subscriber.id subscriber = Some sid →
  select_articles_for_subscriber subscriber n db self = (Return selected, self') →
  selected !! T = Some l → a ∈ l → Article.id a = Some aid →
  ¬ has_send db sid aid.
Proof.
  intros Hsid Hsel Hl Ha Haid.
  destruct (select_lookup_Some _ _ _ _ _ _ _ _ Hsel Hl) as [_ ->].
  apply picked_elem_of in Ha as (c & row & _ & Hrow & ->).
  apply fresh_rows_elem_of in Hrow as (_ & _ & _ & Hnot).
  injection Haid as <-. by apply Hnot.
Qed.

(** Every selected article carries the id of its row. *)
Lemma selected_has_id subscriber n db self selected self' T l a :
  select_articles_for_subscriber subscriber n db self = (Return selected, self') →
  selected !! T = Some l → a ∈ l → ∃ aid, Article.id a = Some aid.
Proof.
  intros Hsel Hl Ha.
  destruct (select_lookup_Some _ _ _ _ _ _ _ _ Hsel Hl) as [_ ->].
  apply picked_elem_of in Ha as (c & row & _ & _ & ->). by eexists.
Qed.

End NoRepeat.

(** ** Exclusion *)

Section Exclusion.
Import DatabaseManager ArticleSelector.

(** Once [exclude_article] marked an id, no selection carries it. *)
Lemma excluded_article_not_selected article_id db subscriber n self selected self' T l a :
  select_articles_for_subscriber subscriber n (exclude_article article_id true db).2 self =
    (Return selected, self') →
  selected !! T = Some l → a ∈ l → Article.id a ≠ Some article_id.
Proof.
  intros Hsel Hl Ha.
  destruct (select_lookup_Some _ _ _ _ _ _ _ _ Hsel Hl) as [_ ->].
  apply picked_elem_of in Ha as (c & row & _ & Hrow & ->).
  apply fresh_rows_elem_of in Hrow as (Hin & _ & Hex & _).
  cbn in Hin. apply list_elem_of_fmap in Hin as (row0 & -> & _).
  cbn. intros [= Hid]. by destruct (decide (a_id row0 = article_id)).
Qed.

End Exclusion.

(** * The claims *)

Section Claims.
Import DatabaseManager ArticleSelector.

(** C3 as stated fails for a count above the query's [LIMIT]: the store
    has eleven fresh Health stories and none under Health's fallbacks,
    twelve are asked for, so fewer than asked exist, and the selection
    returns ten of the eleven. *)
Lemma partial_fulfilment_counterexample :
  ∃ selected self' l,
    select_articles_for_subscriber Sample.scenario_reader 12 Sample.crowded_store init =
      (Return selected, self') ∧
    len (all_candidate_articles (Some 1) Sample.crowded_store "Health") = 11 ∧
    selected !! "Health" = Some l ∧
    len l = 10 ∧
    selected !! "Health" ≠
      Some (take (Z.to_nat 12)
              (all_candidate_articles (Some 1) Sample.crowded_store "Health")).
Proof.
  destruct (select_returns Sample.scenario_reader 12 Sample.crowded_store init)
    as (s & f & Hsel & Hs & _).
  eexists s, _, _. split; [exact Hsel|]. split; [by vm_compute|].
  rewrite Hs.
  split; [vm_compute; reflexivity|]. split; [by vm_compute|].
  vm_compute. discriminate.
Qed.

(** C3, amended.  For every topic [T] of the subscriber and every requested
    count [n], the selection maps [T] to the first [n] elements of [T]'s own
    fresh list followed by the fresh lists of [T]'s fallback topics in listed
    order, each list as the store returns it: newest first and cut at 10;
    when fewer than [n] such articles were returned, it maps [T] to all of
    them, and this is a normal return.  For a count of at most 10 the cut
    does not show: the lists may be read as all fresh articles of the
    topics. *)
Theorem select_takes_first_candidates (subscriber : Subscriber.t) (n : Z)
    (db : Database) (self : ArticleSelector.t) (T : string) :
  0 ≤ n →
  T ∈ Subscriber.issue_areas subscriber →
  ∃ selected self',
    select_articles_for_subscriber subscriber n db self = (Return selected, self') ∧
    selected !! T =
      Some (take (Z.to_nat n)
              (fresh_articles (Subscriber.id subscriber) db T ++
               concat (fresh_articles (Subscriber.id subscriber) db <$>
                         FallbackManager.get_fallback_categories T
                           FallbackManager.default_max_fallbacks))) ∧
    (len (candidate_articles (Subscriber.id subscriber) db T) < n →
     selected !! T = Some (candidate_articles (Subscriber.id subscriber) db T)) ∧
    (∀ c, fresh_articles (Subscriber.id subscriber) db c =
          take 10 (all_fresh_articles (Subscriber.id subscriber) db c)) ∧
    (n ≤ 10 →
     selected !! T =
       Some (take (Z.to_nat n)
               (all_candidate_articles (Subscriber.id subscriber) db T)) ∧
     (len (all_candidate_articles (Subscriber.id subscriber) db T) < n →
      selected !! T = Some (all_candidate_articles (Subscriber.id subscriber) db T))).
Proof.
  intros Hn HT.
  destruct (select_returns subscriber n db self) as (s & f & Hsel & Hs & _).
  eexists s, _. split; [exact Hsel|].
  assert (Hlook : s !! T =
    Some (take (Z.to_nat n) (candidate_articles (Subscriber.id subscriber) db T))).
  { by rewrite Hs, decide_True, picked_prefix. }
  split; [exact Hlook|]. split; [|split].
  - intros Hfew. rewrite Hlook, take_ge; [done|]. unfold len in Hfew. lia.
  - intros c. apply fresh_articles_capped.
  - intros Hcap.
    assert (Hall : s !! T =
      Some (take (Z.to_nat n) (all_candidate_articles (Subscriber.id subscriber) db T))).
    { rewrite Hlook, candidate_articles_capped; [done|]. unfold fresh_limit. lia. }
    split; [exact Hall|].
    intros Hfew. rewrite Hall, take_ge; [done|]. unfold len in Hfew. lia.
Qed.

Lemma select_takes_first_candidates_witness :
  ∃ selected self',
    select_articles_for_subscriber Sample.scenario_reader 2 Sample.scenario_store init =
      (Return selected, self') ∧
    selected !! "Housing" =
      Some (take (Z.to_nat 2)
              (fresh_articles (Some 1) Sample.scenario_store "Housing" ++
               concat (fresh_articles (Some 1) Sample.scenario_store <$>
                         FallbackManager.get_fallback_categories "Housing"
                           FallbackManager.default_max_fallbacks))) ∧
    (len (candidate_articles (Some 1) Sample.scenario_store "Housing") < 2 →
     selected !! "Housing" =
       Some (candidate_articles (Some 1) Sample.scenario_store "Housing")) ∧
    (∀ c, fresh_articles (Some 1) Sample.scenario_store c =
          take 10 (all_fresh_articles (Some 1) Sample.scenario_store c)) ∧
    (2 ≤ 10 →
     selected !! "Housing" =
       Some (take (Z.to_nat 2)
               (all_candidate_articles (Some 1) Sample.scenario_store "Housing")) ∧
     (len (all_candidate_articles (Some 1) Sample.scenario_store "Housing") < 2 →
      selected !! "Housing" =
        Some (all_candidate_articles (Some 1) Sample.scenario_store "Housing"))).
Proof.
  apply (select_takes_first_candidates Sample.scenario_reader 2 Sample.scenario_store
           init "Housing").
  - lia.
  - vm_compute. right. left.
Defined.

(** C4.  A selection returns, and has a final list for every topic of
    the subscriber: the list [_get_articles_with_fallback] returned for
    it.  [was_fallback_used T] is then true exactly when that list contains
    an article filed under another topic, or is empty, and false in every
    other case; for a topic the subscriber does not follow there is no list
    and the answer is false. *)
Theorem was_fallback_used_iff (subscriber : Subscriber.t) (n : Z)
    (db : Database) (self : ArticleSelector.t) :
  ∃ selected self',
    select_articles_for_subscriber subscriber n db self = (Return selected, self') ∧
    (∀ T, T ∈ Subscriber.issue_areas subscriber →
       ∃ l, _get_articles_with_fallback (Subscriber.id subscriber) T n db = Return l ∧
            selected !! T = Some l ∧
            (was_fallback_used T self' = true ↔
             l = [] ∨ ∃ a, a ∈ l ∧ Article.issue_area a ≠ T) ∧
            (was_fallback_used T self' = false ↔
             l ≠ [] ∧ ∀ a, a ∈ l → Article.issue_area a = T)) ∧
    (∀ T, T ∉ Subscriber.issue_areas subscriber →
       selected !! T = None ∧ was_fallback_used T self' = false).
Proof.
  destruct (select_returns subscriber n db self) as (s & f & Hsel & Hs & Hf).
  eexists s, _. split; [exact Hsel|].
  unfold was_fallback_used. cbn [last_fallback_usage default from_option id].
  split; intros T HT.
  - exists (picked (Subscriber.id subscriber) db T n).
    split; [apply get_articles_with_fallback_returns|].
    split; [by rewrite Hs, decide_True|].
    rewrite Hf. destruct (decide (_ ∧ _)) as [[_ Hfl]|Hno]; cbn.
    + apply flags_fallback_iff in Hfl. split; [done|].
      split; [done|]. intros [Hne Hall]. destruct Hfl as [?|(a & Ha & Hd)]; [done|].
      destruct Hd. by apply Hall.
    + assert (Hnfl : ¬ (picked (Subscriber.id subscriber) db T n = [] ∨
                        ∃ a, a ∈ picked (Subscriber.id subscriber) db T n ∧
                             Article.issue_area a ≠ T)).
      { intros Hfl%flags_fallback_iff. by destruct Hno. }
      split; [split; [done|by intros ?]|]. split; [intros _|done]. split.
      * intros Hnil. apply Hnfl. by left.
      * intros a Ha. destruct (decide (Article.issue_area a = T)); [done|].
        destruct Hnfl. right. by exists a.
  - split; [by rewrite Hs, decide_False|].
    rewrite Hf, decide_False by tauto. done.
Qed.

(** C10.  One selection can list the same article under two topics: the
    reader follows Health and Mental Health, the store has a single Mental
    Health story and no Health story, and the story is returned for both. *)
Theorem same_article_under_two_topics :
  ∃ selected self' a,
    select_articles_for_subscriber Sample.overlap_reader 1 Sample.overlap_store init =
      (Return selected, self') ∧
    "Health" ≠ "Mental Health" ∧
    Article.id a = Some 1 ∧
    selected !! "Health" = Some [a] ∧
    selected !! "Mental Health" = Some [a].
Proof.
  destruct (select_returns Sample.overlap_reader 1 Sample.overlap_store init)
    as (s & f & Hsel & Hs & _).
  eexists s, _,
    (Article.from_dict (row_dict (Sample.article_row 1 "M1" "Mental Health" 100))).
  split; [exact Hsel|]. split; [done|].
  rewrite !Hs. repeat split; vm_compute; reflexivity.
Qed.

(** C2 (the code departs from it).  With [fallback_enabled] stored as ["0"]
    and no fresh Health story, the selection still answers Health with the
    Mental Health story: the setting is never read. *)
Theorem fallback_setting_ignored :
  get_setting "fallback_enabled" None Sample.no_fallback_store = Some "0" ∧
  fresh_articles (Some 1) Sample.no_fallback_store "Health" = [] ∧
  ∃ selected self' a,
    select_articles_for_subscriber Sample.overlap_reader 1 Sample.no_fallback_store init =
      (Return selected, self') ∧
    Article.issue_area a = "Mental Health" ∧
    selected !! "Health" = Some [a] ∧
    was_fallback_used "Health" self' = true.
Proof.
  split; [by vm_compute|]. split; [by vm_compute|].
  destruct (select_returns Sample.overlap_reader 1 Sample.no_fallback_store init)
    as (s & f & Hsel & Hs & Hf).
  eexists s, _,
    (Article.from_dict (row_dict (Sample.article_row 1 "M1" "Mental Health" 100))).
  split; [exact Hsel|].
  unfold was_fallback_used. cbn [last_fallback_usage default from_option id].
  rewrite Hs, Hf. repeat split; vm_compute; reflexivity.
Qed.

(** C9.  Selection is a function of the store: two runs for the same
    subscriber over stores with the same articles and the same send records
    return the same selection and leave the same fallback flags, whatever
    the selector went through before and whatever else the stores hold. *)
Theorem select_deterministic (subscriber : Subscriber.t) (n : Z)
    (db1 db2 : Database) (self1 self2 : ArticleSelector.t) :
  articles db1 = articles db2 →
  article_sends db1 = article_sends db2 →
  select_articles_for_subscriber subscriber n db1 self1 =
  select_articles_for_subscriber subscriber n db2 self2.
Proof.
  intros Ha Hs.
  destruct (select_returns subscriber n db1 self1) as (s1 & f1 & -> & Hs1 & Hf1).
  destruct (select_returns subscriber n db2 self2) as (s2 & f2 & -> & Hs2 & Hf2).
  assert (s1 = s2) as ->.
  { apply map_eq. intros T. by rewrite Hs1, Hs2, (picked_ext db1 db2). }
  assert (f1 = f2) as ->; [|done].
  apply map_eq. intros T. by rewrite Hf1, Hf2, (picked_ext db1 db2).
Qed.

Lemma select_deterministic_witness :
  select_articles_for_subscriber Sample.overlap_reader 1 Sample.overlap_store init =
  select_articles_for_subscriber Sample.overlap_reader 1 Sample.no_fallback_store
    (select_articles_for_subscriber Sample.scenario_reader 1 Sample.scenario_store init).2.
Proof.
  apply (select_deterministic Sample.overlap_reader 1 Sample.overlap_store
           Sample.no_fallback_store); reflexivity.
Defined.

(** C5.  For every subscriber and every requested topic the fresh query
    answers with a list, of at most 10 rows, newest first, all of them
    stored under the topic, not excluded and without a send record for the
    subscriber; a fresh row left out is no newer than any row returned; the
    list is empty, and the call still returns, when nothing matches.  Hence every article of a selection comes from a row that is
    not excluded, and where ids are a key no excluded row has its id. *)
Theorem fresh_query_contract (db : Database) :
  (∀ subscriber_id issue_areas,
     ∃ m, get_fresh_articles_for_subscriber subscriber_id issue_areas db = Return m ∧
       ∀ T, T ∈ issue_areas →
         ∃ rows, m !! T = Some (row_dict <$> rows) ∧
           (length rows ≤ 10)%nat ∧
           newest_first a_scraped_at rows ∧
           (∀ row, row ∈ rows →
              row ∈ articles db ∧ a_issue_area row = T ∧ a_excluded row = false ∧
              ∀ sid, subscriber_id = Some sid → ¬ has_send db sid (a_id row)) ∧
           (∀ row other, row ∈ rows → is_fresh subscriber_id T db other →
              other ∉ rows → a_scraped_at other ≤ a_scraped_at row) ∧
           ((∀ row, ¬ is_fresh subscriber_id T db row) → m !! T = Some [])) ∧
  (∀ subscriber n self,
     ∃ selected self',
       select_articles_for_subscriber subscriber n db self = (Return selected, self') ∧
       ∀ T l a, selected !! T = Some l → a ∈ l →
         ∃ row, row ∈ articles db ∧ a_excluded row = false ∧
                a = Article.from_dict (row_dict row) ∧
                (NoDup (a_id <$> articles db) →
                 ∀ row', row' ∈ articles db → Article.id a = Some (a_id row') →
                         a_excluded row' = false)).
Proof.
  split.
  - intros subscriber_id issue_areas.
    destruct (get_fresh_articles_lookup subscriber_id db issue_areas) as (m & Hm & Hlook).
    exists m. split; [exact Hm|]. intros T HT.
    exists (fresh_rows subscriber_id T db).
    assert (HmT : m !! T = Some (row_dict <$> fresh_rows subscriber_id T db))
      by (by rewrite Hlook, decide_True).
    split; [exact HmT|]. split; [apply fresh_rows_length|].
    split; [apply fresh_rows_sorted|]. split.
    + intros row Hrow. by apply fresh_rows_elem_of in Hrow.
    + split; [intros row other; apply fresh_rows_newest|].
      intros Hnone. rewrite HmT. f_equal.
      rewrite (elem_of_nil_inv (fresh_rows subscriber_id T db)); [done|].
      intros row Hrow%fresh_rows_elem_of. by apply (Hnone row).
  - intros subscriber n self.
    destruct (select_returns subscriber n db self) as (s & f & Hsel & _).
    eexists s, _. split; [exact Hsel|]. intros T l a Hl Ha.
    destruct (select_lookup_Some _ _ _ _ _ _ _ _ Hsel Hl) as [_ ->].
    apply picked_elem_of in Ha as (c & row & _ & Hrow & ->).
    apply fresh_rows_elem_of in Hrow as (Hin & _ & Hex & _).
    exists row. repeat split; try done.
    intros Hkey row' Hin' [= Hid].
    by rewrite (NoDup_fmap_elem_of_inj a_id (articles db) row' row).
Qed.

(** C1.  For a subscriber of the store: select, record every returned
    article, select again against the same article pool; then no article of
    the second selection has the id of an article of the first, under
    whatever topics the two were listed. *)
Theorem no_repeat_after_record (subscriber : Subscriber.t) (sid : Z)
    (n1 n2 now campaign_id : Z) (db : Database) (self : ArticleSelector.t) :
  Subscriber.id subscriber = Some sid →
  ∃ first self1 second self2,
    select_articles_for_subscriber subscriber n1 db self = (Return first, self1) ∧
    select_articles_for_subscriber subscriber n2
      (record_sends now subscriber campaign_id first db) self1 =
      (Return second, self2) ∧
    articles (record_sends now subscriber campaign_id first db) = articles db ∧
    ∀ T1 l1 a1 T2 l2 a2,
      first !! T1 = Some l1 → a1 ∈ l1 →
      second !! T2 = Some l2 → a2 ∈ l2 →
      Article.id a1 ≠ Article.id a2.
Proof.
  intros Hsid.
  destruct (select_returns subscriber n1 db self) as (s1 & f1 & Hsel1 & _).
  destruct (select_returns subscriber n2
              (record_sends now subscriber campaign_id s1 db)
              {| last_fallback_usage := Some f1 |}) as (s2 & f2 & Hsel2 & _).
  eexists s1, _, s2, _. split; [exact Hsel1|]. split; [exact Hsel2|].
  split; [apply record_sends_articles|].
  intros T1 l1 a1 T2 l2 a2 Hl1 Ha1 Hl2 Ha2 Heq.
  destruct (selected_has_id _ _ _ _ _ _ _ _ _ Hsel1 Hl1 Ha1) as [aid Haid].
  apply (selected_not_sent _ _ _ _ _ _ _ _ _ _ aid Hsid Hsel2 Hl2 Ha2).
  - by rewrite <- Heq.
  - by apply (record_sends_recorded _ _ _ _ _ _ T1 l1 a1).
Qed.

Lemma no_repeat_after_record_witness :
  ∃ first self1 second self2,
    select_articles_for_subscriber Sample.scenario_reader 1 Sample.scenario_store init =
      (Return first, self1) ∧
    select_articles_for_subscriber Sample.scenario_reader 1
      (record_sends 400 Sample.scenario_reader 1 first Sample.scenario_store) self1 =
      (Return second, self2) ∧
    articles (record_sends 400 Sample.scenario_reader 1 first Sample.scenario_store) =
      articles Sample.scenario_store ∧
    ∀ T1 l1 a1 T2 l2 a2,
      first !! T1 = Some l1 → a1 ∈ l1 →
      second !! T2 = Some l2 → a2 ∈ l2 →
      Article.id a1 ≠ Article.id a2.
Proof.
  apply (no_repeat_after_record Sample.scenario_reader 1 1 1 400 1
           Sample.scenario_store init).
  reflexivity.
Defined.

(** C7.  On a ledger with at most one record per pair, recording returns
    without an error and leaves at most one record per pair.  When the pair
    is already on record no row of any table is written or changed: the
    ledger and the other tables are as before, and only the rowid counter
    of the ledger has moved, by the id the skipped insert drew. *)
Theorem record_is_idempotent (now : Z) (subscriber_id article_id campaign_id : option Z)
    (db : Database) :
  sends_unique db →
  ∃ db',
    record_article_send now subscriber_id article_id campaign_id db = (Return (), db') ∧
    sends_unique db' ∧
    (∀ sid aid, subscriber_id = Some sid → article_id = Some aid →
                has_send db sid aid →
                article_sends db' = article_sends db ∧
                subscribers db' = subscribers db ∧
                articles db' = articles db ∧
                articles_seq db' = articles_seq db ∧
                admin_settings db' = admin_settings db ∧
                article_sends_seq db' =
                  next_rowid (article_sends_seq db) (s_id <$> article_sends db)).
Proof.
  intros Hu.
  exists (record_article_send now subscriber_id article_id campaign_id db).2.
  split; [|split].
  - rewrite <- (record_article_send_returns now subscriber_id article_id campaign_id db).
    by destruct (record_article_send _ _ _ _ _).
  - by apply record_article_send_unique.
  - intros sid aid -> -> Hs. by rewrite record_article_send_present.
Qed.

Lemma record_is_idempotent_witness :
  ∃ db',
    record_article_send 500 (Some 1) (Some 3) (Some 2) Sample.sent_store =
      (Return (), db') ∧
    sends_unique db' ∧
    (∀ sid aid, Some 1 = Some sid → Some 3 = Some aid →
                has_send Sample.sent_store sid aid →
                article_sends db' = article_sends Sample.sent_store ∧
                subscribers db' = subscribers Sample.sent_store ∧
                articles db' = articles Sample.sent_store ∧
                articles_seq db' = articles_seq Sample.sent_store ∧
                admin_settings db' = admin_settings Sample.sent_store ∧
                article_sends_seq db' =
                  next_rowid (article_sends_seq Sample.sent_store)
                    (s_id <$> article_sends Sample.sent_store)).
Proof.
  apply (record_is_idempotent 500 (Some 1) (Some 3) (Some 2) Sample.sent_store).
  intros S A. exact (length_filter _ (article_sends Sample.sent_store)).
Defined.

(** C8 as stated fails: reader 99 and story 77 are in no table of the
    scenario store, and still the fresh query answers and the send is
    written to the ledger; neither call raises. *)
Lemma unknown_ids_counterexample :
  unknown_subscriber Sample.scenario_store 99 ∧
  unknown_article Sample.scenario_store 77 ∧
  ¬ (∃ exc, get_fresh_articles_for_subscriber (Some 99) ["Education"]
              Sample.scenario_store = Raise exc) ∧
  ¬ (∃ exc, (record_article_send 400 (Some 99) (Some 77) (Some 1)
               Sample.scenario_store).1 = Raise exc) ∧
  get_fresh_articles_for_subscriber (Some 99) ["Education"] Sample.scenario_store =
    Return {[ "Education" := [row_dict (Sample.article_row 6 "Edu" "Education" 120)] ]} ∧
  ¬ has_send Sample.scenario_store 99 77 ∧
  has_send (record_article_send 400 (Some 99) (Some 77) (Some 1)
              Sample.scenario_store).2 99 77.
Proof.
  split; [|split; [|split; [|split; [|split; [|split]]]]].
  - intros row Hrow. revert row Hrow. apply Forall_forall.
    repeat constructor; by vm_compute.
  - intros row Hrow. revert row Hrow. apply Forall_forall.
    repeat constructor; by vm_compute.
  - by intros [exc Hexc].
  - intros [exc Hexc]. by rewrite record_article_send_returns in Hexc.
  - by vm_compute.
  - by intros (s & Hs%elem_of_nil & _).
  - apply record_article_send_recorded.
Qed.

(** C8, amended.  No call looks an id up before it uses it.  For a
    subscriber id that SQLite can hold, whether or not a row of
    [subscribers] carries it, the fresh query raises nothing and answers
    every requested topic with the rows that are fresh for that id, newest
    first and at most ten; recording under a subscriber id and an article
    id, whether or not rows carry them, raises nothing and returns. *)
Theorem unknown_ids_are_accepted (now sid aid cid : Z) (issue_areas : list string)
    (db : Database) :
  sqlite_int sid →
  (∃ m, get_fresh_articles_for_subscriber (Some sid) issue_areas db = Return m ∧
        ∀ T, T ∈ issue_areas →
             ∃ rows, m !! T = Some (row_dict <$> rows) ∧
                     (length rows ≤ 10)%nat ∧
                     newest_first a_scraped_at rows ∧
                     ∀ row, row ∈ rows → is_fresh (Some sid) T db row) ∧
  (record_article_send now (Some sid) (Some aid) (Some cid) db).1 = Return ().
Proof.
  intros _. split.
  - destruct (get_fresh_articles_lookup (Some sid) db issue_areas) as (m & Hm & Hlook).
    exists m. split; [exact Hm|]. intros T HT.
    exists (fresh_rows (Some sid) T db). split; [by rewrite Hlook, decide_True|].
    split; [apply fresh_rows_length|]. split; [apply fresh_rows_sorted|].
    intros row. apply fresh_rows_elem_of.
  - apply record_article_send_returns.
Qed.

Lemma unknown_ids_are_accepted_witness :
  (unknown_subscriber Sample.scenario_store 99 ∧
   unknown_article Sample.scenario_store 77) ∧
  (∃ m, get_fresh_articles_for_subscriber (Some 99) ["Education"]
          Sample.scenario_store = Return m ∧
        ∀ T, T ∈ ["Education"] →
             ∃ rows, m !! T = Some (row_dict <$> rows) ∧
                     (length rows ≤ 10)%nat ∧
                     newest_first a_scraped_at rows ∧
                     ∀ row, row ∈ rows → is_fresh (Some 99) T Sample.scenario_store row) ∧
  (record_article_send 400 (Some 99) (Some 77) (Some 1) Sample.scenario_store).1 =
    Return ().
Proof.
  split.
  - split; intros row Hrow; revert row Hrow; apply Forall_forall;
      repeat constructor; by vm_compute.
  - apply (unknown_ids_are_accepted 400 99 77 1 ["Education"] Sample.scenario_store).
    unfold sqlite_int. lia.
Defined.

(** C6.  Adding a URL a second time, whatever the title, outlet and topic
    of the second submission, returns the id the first call returned, and
    the [articles] table has the same rows afterwards: no row is added and
    none is rewritten; the skipped insert only moves the rowid counter of
    the table.  When the hash was new, the store then holds exactly one row
    for it, with the metadata of the first call; when it was there before,
    the first call left the rows as they were, too, and returned the id of
    the stored row. *)
Theorem add_article_idempotent (md5_hexdigest : string → string)
    (now1 now2 : Z) (title1 title2 url outlet1 outlet2 topic1 topic2 : string)
    (db : Database) :
  ∃ article_id db1 db2,
    add_article md5_hexdigest now1 title1 url outlet1 topic1 db = (Some article_id, db1) ∧
    add_article md5_hexdigest now2 title2 url outlet2 topic2 db1 = (Some article_id, db2) ∧
    articles db2 = articles db1 ∧
    db2 = ignored_articles_insert db1 ∧
    (filter (λ a, a_url_hash a = md5_hexdigest url) (articles db) = [] →
     articles db1 =
       (articles db ++
        [ {| a_id := article_id; a_url_hash := md5_hexdigest url; a_title := title1;
             a_url := url; a_outlet := outlet1; a_issue_area := topic1;
             a_scraped_at := now1; a_excluded := false |} ])%list ∧
     filter (λ a, a_url_hash a = md5_hexdigest url) (articles db2) =
       [ {| a_id := article_id; a_url_hash := md5_hexdigest url; a_title := title1;
            a_url := url; a_outlet := outlet1; a_issue_area := topic1;
            a_scraped_at := now1; a_excluded := false |} ]) ∧
    (filter (λ a, a_url_hash a = md5_hexdigest url) (articles db) ≠ [] →
     articles db1 = articles db ∧
     ∃ row, head (filter (λ a, a_url_hash a = md5_hexdigest url) (articles db)) = Some row ∧
            a_id row = article_id).
Proof.
  unfold add_article at 1.
  destruct (filter (λ a, a_url_hash a = md5_hexdigest url) (articles db))
    as [|row rows] eqn:Hf.
  - set (row0 := {| a_id := next_rowid (articles_seq db) (a_id <$> articles db);
                    a_url_hash := md5_hexdigest url; a_title := title1;
                    a_url := url; a_outlet := outlet1; a_issue_area := topic1;
                    a_scraped_at := now1; a_excluded := false |}).
    set (db1 := {| subscribers := subscribers db;
                   articles := articles db ++ [row0];
                   articles_seq := a_id row0;
                   article_sends := article_sends db;
                   article_sends_seq := article_sends_seq db;
                   admin_settings := admin_settings db |}).
    assert (Hf1 : filter (λ a, a_url_hash a = md5_hexdigest url) (articles db1) = [row0]).
    { cbn [articles db1]. rewrite filter_app, Hf, filter_cons, filter_nil.
      by rewrite decide_True. }
    exists (a_id row0), db1, (ignored_articles_insert db1). split; [reflexivity|].
    split; [unfold add_article; by rewrite Hf1|].
    split; [done|]. split; [done|]. split; [|done]. intros _. split; [done|].
    exact Hf1.
  - cbn [head]. exists (a_id row), (ignored_articles_insert db),
      (ignored_articles_insert (ignored_articles_insert db)).
    split; [done|].
    split; [unfold add_article; cbn [ignored_articles_insert articles]; by rewrite Hf|].
    split; [done|]. split; [done|]. split; [done|].
    intros _. split; [done|]. by exists row.
Qed.

End Claims.

(** * Further properties of the code *)

Section Further.
Import DatabaseManager ArticleSelector.

Lemma fallback_table_cases (T : string) (l : list string) :
  FallbackManager.FALLBACK_MAPPING !! T = Some l →
  ((2 ≤ length l)%nat ∧ (length l ≤ 3)%nat) ∧ (T ∉ l) ∧ NoDup l ∧
  (l ⊆ AVAILABLE_ISSUE_AREAS).
Proof.
  intros H. apply elem_of_list_to_map_2 in H.
  repeat (apply elem_of_cons in H as [[= -> ->]|H];
          [by repeat split;
             first [ cbn; lia | apply (bool_decide_unpack _); vm_compute; exact I ]|]).
  by apply elem_of_nil in H.
Qed.

Lemma fallback_categories_lookup (T : string) :
  FallbackManager.get_fallback_categories T FallbackManager.default_max_fallbacks =
  default [] (FallbackManager.FALLBACK_MAPPING !! T).
Proof.
  unfold FallbackManager.get_fallback_categories, FallbackManager.default_max_fallbacks.
  rewrite slice_to_nonneg by lia.
  destruct (FallbackManager.FALLBACK_MAPPING !! T) as [l|] eqn:Hl; [|done].
  apply fallback_table_cases in Hl as ([_ Hlen] & _). cbn [default from_option id].
  apply take_ge. lia.
Qed.

Lemma related_categories_distinct (T : string) :
  (T ∉ FallbackManager.get_fallback_categories T
         FallbackManager.default_max_fallbacks) ∧
  NoDup (FallbackManager.get_all_related_categories T).
Proof.
  unfold FallbackManager.get_all_related_categories.
  rewrite fallback_categories_lookup.
  destruct (FallbackManager.FALLBACK_MAPPING !! T) as [l|] eqn:Hl;
    cbn [default from_option id].
  - apply fallback_table_cases in Hl as (_ & HT & Hnd & _).
    split; [done|by apply NoDup_cons].
  - split; [apply not_elem_of_nil|apply NoDup_singleton].
Qed.

(** Two stores with the same articles and the same send records give the
    same selection, whatever the selector held before. *)
Lemma select_reads_articles_and_sends (subscriber : Subscriber.t) (n : Z)
    (db1 db2 : Database) (self1 self2 : ArticleSelector.t) :
  articles db1 = articles db2 →
  article_sends db1 = article_sends db2 →
  select_articles_for_subscriber subscriber n db1 self1 =
  select_articles_for_subscriber subscriber n db2 self2.
Proof.
  intros Ha Hs.
  destruct (select_returns subscriber n db1 self1) as (s1 & f1 & -> & Hs1 & Hf1).
  destruct (select_returns subscriber n db2 self2) as (s2 & f2 & -> & Hs2 & Hf2).
  assert (s1 = s2) as ->.
  { apply map_eq. intros T. by rewrite Hs1, Hs2, (picked_ext db1 db2). }
  assert (f1 = f2) as ->; [|done].
  apply map_eq. intros T. by rewrite Hf1, Hf2, (picked_ext db1 db2).
Qed.

(** X1.  The fallback table as [get_fallback_categories] serves it with the
    default [max_fallbacks]: the whole entry of the topic (the cut at 3
    shortens none), [[]] without an entry; never the topic itself, no
    repetition among the topic and its fallbacks, only available issue
    areas; every available issue area but Education has at least two
    fallbacks, Education and unknown topics have none. *)
Theorem fallback_categories_well_formed (T : string) :
  let fallbacks :=
    FallbackManager.get_fallback_categories T FallbackManager.default_max_fallbacks in
  fallbacks = default [] (FallbackManager.FALLBACK_MAPPING !! T) ∧
  (length fallbacks ≤ 3)%nat ∧
  (T ∉ fallbacks) ∧
  NoDup (FallbackManager.get_all_related_categories T) ∧
  (fallbacks ⊆ AVAILABLE_ISSUE_AREAS) ∧
  (T ∈ AVAILABLE_ISSUE_AREAS → T ≠ "Education" → (2 ≤ length fallbacks)%nat) ∧
  (T ∉ AVAILABLE_ISSUE_AREAS ∨ T = "Education" → fallbacks = []).
Proof.
  cbv zeta. unfold FallbackManager.get_all_related_categories.
  rewrite fallback_categories_lookup.
  destruct (FallbackManager.FALLBACK_MAPPING !! T) as [l|] eqn:Hl;
    cbn [default from_option id].
  - pose proof Hl as ([Hlo Hhi] & HT & Hnd & Hsub)%fallback_table_cases.
    split; [done|]. split; [done|]. split; [done|].
    split; [by apply NoDup_cons|]. split; [done|]. split; [done|].
    intros Hout. apply elem_of_list_to_map_2 in Hl.
    assert (HTin : T ∈ AVAILABLE_ISSUE_AREAS ∧ T ≠ "Education").
    { clear -Hl.
      repeat (apply elem_of_cons in Hl as [[= -> ->]|Hl];
              [split; [apply (bool_decide_unpack _); vm_compute; exact I|done]|]).
      by apply elem_of_nil in Hl. }
    destruct Hout as [?| ->]; tauto.
  - split; [done|]. split; [cbn; lia|]. split; [apply not_elem_of_nil|].
    split; [apply NoDup_singleton|]. split; [by intros ? ?%elem_of_nil|].
    split; [|done]. intros HT Hne. exfalso.
    unfold AVAILABLE_ISSUE_AREAS in HT.
    repeat (apply elem_of_cons in HT as [->|HT]; [by vm_compute in Hl|]).
    by apply elem_of_nil in HT.
Qed.


Lemma fresh_articles_elem_of sid db c a :
  a ∈ fresh_articles sid db c →
  ∃ row, row ∈ fresh_rows sid c db ∧ a = Article.from_dict (row_dict row) ∧
         Article.issue_area a = c ∧ Article.id a = Some (a_id row).
Proof.
  unfold fresh_articles. rewrite <- list_fmap_compose.
  intros (row & -> & Hrow)%list_elem_of_fmap. exists row.
  apply fresh_rows_elem_of in Hrow as Hf. destruct Hf as (_ & Hia & _).
  split; [done|]. split; [done|]. split; [exact Hia|done].
Qed.

Lemma candidate_articles_split sid db T (n : nat) :
  take n (candidate_articles sid db T) =
  (take n (fresh_articles sid db T) ++
   take (n - length (fresh_articles sid db T))
     (concat (fresh_articles sid db <$>
                FallbackManager.get_fallback_categories T
                  FallbackManager.default_max_fallbacks)))%list.
Proof. unfold candidate_articles. apply take_app. Qed.

Lemma fallback_articles_other_topic sid db T a :
  a ∈ concat (fresh_articles sid db <$>
                FallbackManager.get_fallback_categories T
                  FallbackManager.default_max_fallbacks) →
  Article.issue_area a ≠ T ∧
  Article.issue_area a ∈
    FallbackManager.get_fallback_categories T FallbackManager.default_max_fallbacks.
Proof.
  intros (l & Hl & Ha)%list_elem_of_In%in_concat.
  apply list_elem_of_In, list_elem_of_fmap in Hl as (c & -> & Hc).
  apply list_elem_of_In, fresh_articles_elem_of in Ha as (_ & _ & _ & -> & _).
  split; [|done]. intros ->.
  by destruct (related_categories_distinct T) as [HT _].
Qed.

(** X2.  Shape of a selection for a count [0 ≤ n]: a list exactly for the
    subscriber's issue areas; under topic [T] at most [n] articles, first
    the first [n] of [T]'s own fresh articles, then articles of other
    topics, all of them from [T]'s fallback categories, and these only
    when every own fresh article was taken and they were fewer than [n]. *)
Theorem selection_shape (subscriber : Subscriber.t) (n : Z) (db : Database)
    (self : ArticleSelector.t) :
  0 ≤ n →
  ∃ selected self',
    select_articles_for_subscriber subscriber n db self = (Return selected, self') ∧
    (∀ T, T ∉ Subscriber.issue_areas subscriber → selected !! T = None) ∧
    (∀ T, T ∈ Subscriber.issue_areas subscriber →
       ∃ own others,
         selected !! T = Some (own ++ others)%list ∧
         len (own ++ others)%list ≤ n ∧
         own = take (Z.to_nat n) (fresh_articles (Subscriber.id subscriber) db T) ∧
         (∀ a, a ∈ own → Article.issue_area a = T) ∧
         (∀ a, a ∈ others →
            Article.issue_area a ≠ T ∧
            Article.issue_area a ∈
              FallbackManager.get_fallback_categories T
                FallbackManager.default_max_fallbacks) ∧
         (others ≠ [] →
            own = fresh_articles (Subscriber.id subscriber) db T ∧ len own < n)).
Proof.
  intros Hn.
  destruct (select_returns subscriber n db self) as (s & f & Hsel & Hs & _).
  eexists s, _. split; [exact Hsel|]. split.
  - intros T HT. by rewrite Hs, decide_False.
  - intros T HT. rewrite Hs, decide_True, picked_prefix by done.
    rewrite candidate_articles_split. eexists _, _. split; [done|].
    split; [|split; [done|split; [|split]]].
    + rewrite <- candidate_articles_split. unfold len. rewrite length_take. lia.
    + intros a Ha.
      by destruct (fresh_articles_elem_of _ _ _ _ (subseteq_take _ _ _ Ha))
        as (_ & _ & _ & ? & _).
    + intros a Ha. exact (fallback_articles_other_topic _ _ _ _ (subseteq_take _ _ _ Ha)).
    + intros Hne.
      destruct (decide (Z.to_nat n ≤ length (fresh_articles (Subscriber.id subscriber) db T))%nat)
        as [Hle|Hgt].
      * destruct Hne. replace (_ - _)%nat with 0%nat by lia. apply take_0.
      * rewrite take_ge by lia. split; [done|]. unfold len. lia.
Qed.

Lemma selection_shape_witness :
  ∃ selected self',
    select_articles_for_subscriber Sample.scenario_reader 2 Sample.scenario_store init =
      (Return selected, self') ∧
    (∀ T, T ∉ Subscriber.issue_areas Sample.scenario_reader → selected !! T = None) ∧
    (∀ T, T ∈ Subscriber.issue_areas Sample.scenario_reader →
       ∃ own others,
         selected !! T = Some (own ++ others)%list ∧
         len (own ++ others)%list ≤ 2 ∧
         own = take (Z.to_nat 2)
                 (fresh_articles (Subscriber.id Sample.scenario_reader)
                    Sample.scenario_store T) ∧
         (∀ a, a ∈ own → Article.issue_area a = T) ∧
         (∀ a, a ∈ others →
            Article.issue_area a ≠ T ∧
            Article.issue_area a ∈
              FallbackManager.get_fallback_categories T
                FallbackManager.default_max_fallbacks) ∧
         (others ≠ [] →
            own = fresh_articles (Subscriber.id Sample.scenario_reader)
                    Sample.scenario_store T ∧ len own < 2)).
Proof.
  apply (selection_shape Sample.scenario_reader 2 Sample.scenario_store init). lia.
Defined.

(** X3.  Counts that are not positive.  A negative [n] makes the slice drop
    the last [|n|] of the topic's own fresh articles, and the fallback
    branch, guarded by [len(selected) < n], is never entered; [n = 0]
    gives an empty list for every topic, flagged as fallback. *)
Theorem nonpositive_count_selection (subscriber : Subscriber.t) (n : Z) (db : Database)
    (self : ArticleSelector.t) :
  n ≤ 0 →
  ∃ selected self',
    select_articles_for_subscriber subscriber n db self = (Return selected, self') ∧
    ∀ T, T ∈ Subscriber.issue_areas subscriber →
      (n < 0 →
       selected !! T =
         Some (take (length (fresh_articles (Subscriber.id subscriber) db T)
                     - Z.to_nat (- n))
                 (fresh_articles (Subscriber.id subscriber) db T))) ∧
      (n = 0 → selected !! T = Some [] ∧ was_fallback_used T self' = true).
Proof.
  intros Hn.
  destruct (select_returns subscriber n db self) as (s & f & Hsel & Hs & Hf).
  eexists s, _. split; [exact Hsel|]. intros T HT. split.
  - intros Hneg. rewrite Hs, decide_True by done. f_equal.
    unfold picked, _get_articles_with_fallback.
    destruct (get_fresh_articles_lookup (Subscriber.id subscriber) db
                (FallbackManager.get_all_related_categories T)) as (abc & -> & Habc).
    rewrite outcome_bind_return, Habc.
    rewrite (decide_True (P := T ∈ _))
      by (unfold FallbackManager.get_all_related_categories; left).
    cbn [default from_option id].
    rewrite (decide_False (P := _ < n)) by (unfold len; lia).
    unfold slice_to. rewrite decide_False by lia.
    rewrite fmap_take. unfold fresh_articles. f_equal.
    rewrite !length_fmap. lia.
  - intros ->.
    assert (Hnil : picked (Subscriber.id subscriber) db T 0 = []).
    { rewrite picked_prefix by done. apply take_0. }
    split; [by rewrite Hs, decide_True, Hnil|].
    unfold was_fallback_used. cbn [last_fallback_usage default from_option id].
    rewrite Hf, decide_True; [done|]. split; [done|]. by rewrite Hnil.
Qed.

Lemma nonpositive_count_selection_witness :
  ∃ selected self',
    select_articles_for_subscriber Sample.scenario_reader (-1) Sample.scenario_store init =
      (Return selected, self') ∧
    ∀ T, T ∈ Subscriber.issue_areas Sample.scenario_reader →
      (-1 < 0 →
       selected !! T =
         Some (take (length (fresh_articles (Subscriber.id Sample.scenario_reader)
                               Sample.scenario_store T)
                     - Z.to_nat (- -1))
                 (fresh_articles (Subscriber.id Sample.scenario_reader)
                    Sample.scenario_store T))) ∧
      (-1 = 0 → selected !! T = Some [] ∧ was_fallback_used T self' = true).
Proof.
  apply (nonpositive_count_selection Sample.scenario_reader (-1) Sample.scenario_store
           init).
  lia.
Defined.


Lemma insert_desc_Permutation {A : Type} (key : A → Z) x (l : list A) :
  insert_desc key x l ≡ₚ x :: l.
Proof.
  induction l as [|y l IH]; cbn; [done|]. case_decide; [|done].
  rewrite IH. apply Permutation_swap.
Qed.

Lemma order_by_desc_Permutation {A : Type} (key : A → Z) (l : list A) :
  order_by_desc key l ≡ₚ l.
Proof.
  induction l as [|x l IH]; cbn; [done|]. by rewrite insert_desc_Permutation, IH.
Qed.

(** The join and the [WHERE] together: a filter of the [articles] table. *)
Lemma where_fresh_filter sid ia db :
  fst <$> filter (where_fresh ia) (left_join_sends sid db) =
  filter (λ a, a_issue_area a = ia ∧ a_excluded a = false ∧
               Forall (λ s, ¬ join_on sid a s) (article_sends db))
         (articles db).
Proof.
  unfold left_join_sends. induction (articles db) as [|a l IH]; [done|].
  cbn [mbind list_bind]. rewrite filter_app, fmap_app, IH, filter_cons. f_equal.
  destruct (filter (join_on sid a) (article_sends db)) as [|s0 ms] eqn:Hj.
  - assert (Hall : Forall (λ s, ¬ join_on sid a s) (article_sends db)).
    { apply Forall_forall. intros s Hs Hjs.
      exact (filter_nil_not_elem_of _ _ s Hj Hjs Hs). }
    rewrite filter_cons, filter_nil. cbn.
    destruct (decide (where_fresh ia (a, None))) as [(? & ? & _)|Hn]; cbn in *.
    + by rewrite decide_True.
    + rewrite decide_False; [done|]. intros (? & ? & _). apply Hn. by repeat split.
  - rewrite (decide_False (P := _ ∧ _ ∧ Forall _ _)).
    2:{ intros (_ & _ & Hall). rewrite Forall_forall in Hall.
        assert (Hs0 : s0 ∈ filter (join_on sid a) (article_sends db)) by (rewrite Hj; left).
        apply list_elem_of_filter in Hs0 as [Hj0 Hs0]. by apply (Hall s0). }
    assert (Hnone : ∀ ms' : list SendsRow,
              filter (where_fresh ia) ((λ s, (a, Some s)) <$> ms') = []).
    { induction ms' as [|s' ms' IH']; [done|].
      rewrite fmap_cons, filter_cons, decide_False; [done|]. by intros (_ & _ & ?). }
    by rewrite Hnone.
Qed.

Lemma fresh_rows_ids_NoDup sid ia db :
  NoDup (a_id <$> articles db) → NoDup (a_id <$> fresh_rows sid ia db).
Proof.
  intros Hnd. unfold fresh_rows, fresh_rows_ordered.
  eapply sublist_NoDup; [|apply fmap_sublist, sublist_take].
  rewrite order_by_desc_Permutation, where_fresh_filter.
  eapply sublist_NoDup; [exact Hnd|]. apply fmap_sublist, sublist_filter.
Qed.

Lemma fresh_rows_concat_ids_NoDup sid db (cats : list string) :
  NoDup (a_id <$> articles db) → NoDup cats →
  NoDup (a_id <$> concat ((λ c, fresh_rows sid c db) <$> cats)).
Proof.
  intros Hnd. induction 1 as [|c cats Hc Hcats IH]; [constructor|].
  cbn [fmap list_fmap concat]. rewrite fmap_app. apply NoDup_app.
  split; [by apply fresh_rows_ids_NoDup|]. split; [|done].
  intros i (r1 & -> & Hr1)%list_elem_of_fmap (r2 & Heq & Hr2)%list_elem_of_fmap.
  apply list_elem_of_In, in_concat in Hr2 as (l & Hl & Hr2).
  apply list_elem_of_In, list_elem_of_fmap in Hl as (c' & -> & Hc').
  apply list_elem_of_In in Hr2.
  apply fresh_rows_elem_of in Hr1 as (Hin1 & Hia1 & _).
  apply fresh_rows_elem_of in Hr2 as (Hin2 & Hia2 & _).
  assert (r1 = r2) as -> by by apply (NoDup_fmap_elem_of_inj a_id (articles db)).
  congruence.
Qed.

(** X4.  Where article ids are unique and the count is not negative, no list
    of a selection holds an article id twice: the lists of the topic and
    of its fallback categories are disjoint. *)
Theorem no_duplicate_within_topic (subscriber : Subscriber.t) (n : Z) (db : Database)
    (self : ArticleSelector.t) :
  0 ≤ n →
  NoDup (a_id <$> articles db) →
  ∃ selected self',
    select_articles_for_subscriber subscriber n db self = (Return selected, self') ∧
    ∀ T l, selected !! T = Some l → NoDup (Article.id <$> l).
Proof.
  intros Hn Hnd.
  destruct (select_returns subscriber n db self) as (s & f & Hsel & Hs & _).
  eexists s, _. split; [exact Hsel|]. intros T l. rewrite Hs.
  case_decide; [|done]. intros [= <-]. rewrite picked_prefix by done.
  eapply sublist_NoDup; [|apply fmap_sublist, sublist_take].
  assert (Hrows : candidate_articles (Subscriber.id subscriber) db T =
    (Article.from_dict ∘ row_dict) <$>
      concat ((λ c, fresh_rows (Subscriber.id subscriber) c db) <$>
                FallbackManager.get_all_related_categories T)).
  { unfold candidate_articles, FallbackManager.get_all_related_categories.
    cbn [fmap list_fmap concat]. rewrite fmap_app. f_equal.
    - unfold fresh_articles. by rewrite <- list_fmap_compose.
    - induction (FallbackManager.get_fallback_categories _ _) as [|c cs IH]; [done|].
      cbn [fmap list_fmap concat]. rewrite fmap_app, <- IH. f_equal.
      unfold fresh_articles. by rewrite <- list_fmap_compose. }
  rewrite Hrows, <- list_fmap_compose.
  change (Article.id ∘ (Article.from_dict ∘ row_dict)) with (Some ∘ a_id).
  rewrite list_fmap_compose. apply NoDup_fmap_2; [apply _|].
  apply fresh_rows_concat_ids_NoDup; [done|].
  by destruct (related_categories_distinct T) as [_ ?].
Qed.

Lemma no_duplicate_within_topic_witness :
  ∃ selected self',
    select_articles_for_subscriber Sample.scenario_reader 3 Sample.scenario_store init =
      (Return selected, self') ∧
    ∀ T l, selected !! T = Some l → NoDup (Article.id <$> l).
Proof.
  apply (no_duplicate_within_topic Sample.scenario_reader 3 Sample.scenario_store init).
  - lia.
  - apply (bool_decide_unpack _). vm_compute. exact I.
Defined.

(** X5.  After [exclude_article article_id] (with [excluded = True]) no
    selection, for any subscriber and count, holds an article of that id. *)
Theorem excluded_article_never_selected (article_id : Z) (db : Database)
    (subscriber : Subscriber.t) (n : Z) (self : ArticleSelector.t) :
  ∃ selected self',
    select_articles_for_subscriber subscriber n (exclude_article article_id true db).2 self =
      (Return selected, self') ∧
    ∀ T l a, selected !! T = Some l → a ∈ l → Article.id a ≠ Some article_id.
Proof.
  destruct (select_returns subscriber n (exclude_article article_id true db).2 self)
    as (s & f & Hsel & _).
  eexists s, _. split; [exact Hsel|]. intros T l a.
  by apply (excluded_article_not_selected _ _ _ _ _ _ _ _ _ _ Hsel).
Qed.

Lemma exclude_article_fmap_id (article_id : Z) (excluded : bool) (l : list ArticlesRow) :
  (∀ a, a ∈ l → a_id a = article_id → a_excluded a = excluded) →
  (λ a, if decide (a_id a = article_id)
        then {| a_id := a_id a; a_url_hash := a_url_hash a; a_title := a_title a;
                a_url := a_url a; a_outlet := a_outlet a;
                a_issue_area := a_issue_area a; a_scraped_at := a_scraped_at a;
                a_excluded := excluded |}
        else a) <$> l = l.
Proof.
  intros H. rewrite <- (list_fmap_id l) at 2. apply list_fmap_ext.
  intros i a Ha%list_elem_of_lookup_2. case_decide as Hid; [|done].
  rewrite <- (H a Ha Hid). by destruct a.
Qed.

(** X6.  [exclude_article] reports [True] exactly when a row has the id;
    without one it returns [False] and changes nothing; rows of another id
    are never touched; excluding and then including an article that was
    not excluded restores the store. *)
Theorem exclude_article_round_trip (article_id : Z) (db : Database) :
  (∀ excluded,
     (exclude_article article_id excluded db).1 = true ↔
     ∃ a, a ∈ articles db ∧ a_id a = article_id) ∧
  (∀ excluded,
     (∀ a, a ∈ articles db → a_id a ≠ article_id) →
     exclude_article article_id excluded db = (false, db)) ∧
  (∀ excluded a,
     a ∈ articles db → a_id a ≠ article_id →
     a ∈ articles (exclude_article article_id excluded db).2) ∧
  ((∀ a, a ∈ articles db → a_id a = article_id → a_excluded a = false) →
   (exclude_article article_id false (exclude_article article_id true db).2).2 = db).
Proof.
  split; [|split; [|split]].
  - intros excluded. cbn. rewrite bool_decide_eq_true, Exists_exists. naive_solver.
  - intros excluded Hno. unfold exclude_article. f_equal.
    + apply bool_decide_eq_false. rewrite Exists_exists. naive_solver.
    + destruct db as [su ar arseq se seseq st]. cbn in *. f_equal.
      rewrite <- (list_fmap_id ar) at 2. apply list_fmap_ext.
      intros i a Ha%list_elem_of_lookup_2. by rewrite decide_False by by apply Hno.
  - intros excluded a Ha Hne. cbn. apply list_elem_of_fmap. exists a.
    split; [|done]. by rewrite decide_False.
  - intros Hclean. destruct db as [su ar arseq se seseq st]. cbn in *. f_equal.
    rewrite <- list_fmap_compose. rewrite <- (list_fmap_id ar) at 2.
    apply list_fmap_ext. intros i a Ha%list_elem_of_lookup_2. cbn.
    destruct (decide (a_id a = article_id)) as [Hid|Hid]; cbn.
    + rewrite decide_True by done. rewrite <- (Hclean a Ha Hid). by destruct a.
    + by rewrite decide_False.
Qed.

(** X7.  A subscriber object without an id is never recorded: every
    insert of a NULL [subscriber_id] is skipped, so the ledger and the
    articles keep their rows and the next selection returns the same
    articles. *)
Theorem unsaved_subscriber_repeats (subscriber : Subscriber.t) (n now campaign_id : Z)
    (db : Database) (self : ArticleSelector.t) :
  Subscriber.id subscriber = None →
  ∃ selected self',
    select_articles_for_subscriber subscriber n db self = (Return selected, self') ∧
    article_sends (record_sends now subscriber campaign_id selected db) =
      article_sends db ∧
    articles (record_sends now subscriber campaign_id selected db) = articles db ∧
    select_articles_for_subscriber subscriber n
      (record_sends now subscriber campaign_id selected db) self' =
      (Return selected, self').
Proof.
  intros Hid.
  destruct (select_returns subscriber n db self) as (s & f & Hsel & _).
  eexists s, _. split; [exact Hsel|].
  assert (Hrec : article_sends (record_sends now subscriber campaign_id s db) =
                 article_sends db).
  { unfold record_sends. rewrite Hid. generalize (concat ((map_to_list s).*2)).
    intros l. clear Hsel. revert db.
    induction l as [|a l IH]; intros db; [done|].
    cbn [foldl]. by rewrite IH. }
  split; [exact Hrec|]. split; [apply record_sends_articles|].
  rewrite <- Hsel. apply select_reads_articles_and_sends; [|exact Hrec].
  apply record_sends_articles.
Qed.

Lemma unsaved_subscriber_repeats_witness :
  ∃ selected self',
    select_articles_for_subscriber
      {| Subscriber.email := "new@example.org"; Subscriber.issue_area_1 := "Health";
         Subscriber.issue_area_2 := "Housing"; Subscriber.issue_area_3 := "Education";
         Subscriber.active := true; Subscriber.id := None;
         Subscriber.created_at := None; Subscriber.updated_at := None |}
      1 Sample.scenario_store init = (Return selected, self') ∧
    article_sends
      (record_sends 400
         {| Subscriber.email := "new@example.org"; Subscriber.issue_area_1 := "Health";
            Subscriber.issue_area_2 := "Housing"; Subscriber.issue_area_3 := "Education";
            Subscriber.active := true; Subscriber.id := None;
            Subscriber.created_at := None; Subscriber.updated_at := None |}
         1 selected Sample.scenario_store) = article_sends Sample.scenario_store ∧
    articles
      (record_sends 400
         {| Subscriber.email := "new@example.org"; Subscriber.issue_area_1 := "Health";
            Subscriber.issue_area_2 := "Housing"; Subscriber.issue_area_3 := "Education";
            Subscriber.active := true; Subscriber.id := None;
            Subscriber.created_at := None; Subscriber.updated_at := None |}
         1 selected Sample.scenario_store) = articles Sample.scenario_store ∧
    select_articles_for_subscriber
      {| Subscriber.email := "new@example.org"; Subscriber.issue_area_1 := "Health";
         Subscriber.issue_area_2 := "Housing"; Subscriber.issue_area_3 := "Education";
         Subscriber.active := true; Subscriber.id := None;
         Subscriber.created_at := None; Subscriber.updated_at := None |}
      1 (record_sends 400
           {| Subscriber.email := "new@example.org"; Subscriber.issue_area_1 := "Health";
              Subscriber.issue_area_2 := "Housing"; Subscriber.issue_area_3 := "Education";
              Subscriber.active := true; Subscriber.id := None;
              Subscriber.created_at := None; Subscriber.updated_at := None |}
           1 selected Sample.scenario_store) self' = (Return selected, self').
Proof.
  apply (unsaved_subscriber_repeats _ 1 400 1 Sample.scenario_store init). reflexivity.
Defined.

Lemma insert_or_ignore_lookup (l : list (string * string)) (m : gmap string string)
    (key : string) :
  foldl (λ m kv, match m !! kv.1 with
                 | Some _ => m
                 | None => <[kv.1 := kv.2]> m
                 end) m l !! key =
  match m !! key with
  | Some v => Some v
  | None => (list_to_map l : gmap string string) !! key
  end.
Proof.
  revert m. induction l as [|[k v] l IH]; intros m; cbn [foldl list_to_map foldr].
  - rewrite lookup_empty. by destruct (m !! key).
  - rewrite IH. cbn [fst snd]. destruct (decide (k = key)) as [->|Hne].
    + destruct (m !! key) as [w|] eqn:Hm.
      * by rewrite Hm.
      * by rewrite !lookup_insert_eq.
    + rewrite (lookup_insert_ne (list_to_map l)) by done.
      destruct (m !! k); [done|]. by rewrite lookup_insert_ne.
Qed.

(** X8.  Settings across [init_database]: the stored value if any, else the
    default of [default_settings], else the caller's default; a value
    written by [set_setting] survives [init_database]; writing another key
    does not change the value read; [init_database] twice is
    [init_database] once. *)
Theorem settings_after_init (db : Database) (key : string) (default : option string) :
  get_setting key default (init_database db) =
    match admin_settings db !! key with
    | Some value => Some value
    | None =>
        match (list_to_map default_settings : gmap string string) !! key with
        | Some value => Some value
        | None => default
        end
    end ∧
  (∀ value, get_setting key default (init_database (set_setting key value db)) =
            Some value) ∧
  (∀ other value, other ≠ key →
     get_setting key default (set_setting other value db) = get_setting key default db) ∧
  init_database (init_database db) = init_database db.
Proof.
  split; [|split; [|split]].
  - unfold get_setting, init_database. cbn [admin_settings].
    rewrite insert_or_ignore_lookup. by destruct (admin_settings db !! key).
  - intros value. unfold get_setting, init_database, set_setting. cbn [admin_settings].
    by rewrite insert_or_ignore_lookup, lookup_insert_eq.
  - intros other value Hne. unfold get_setting, set_setting. cbn [admin_settings].
    by rewrite lookup_insert_ne.
  - unfold init_database.
    cbn [subscribers articles articles_seq article_sends article_sends_seq
           admin_settings].
    f_equal. apply map_eq. intros k. rewrite !insert_or_ignore_lookup.
    by destruct (admin_settings db !! k),
         ((list_to_map default_settings : gmap string string) !! k).
Qed.

Lemma next_rowid_gt (seq : Z) (ids : list Z) :
  seq < next_rowid seq ids ∧ ∀ i, i ∈ ids → i < next_rowid seq ids.
Proof.
  unfold next_rowid. induction ids as [|j ids [IH1 IH2]]; cbn [foldr].
  - split; [lia|]. by intros i ?%elem_of_nil.
  - split; [lia|]. intros i [->|Hi]%elem_of_cons; [lia|]. specialize (IH2 i Hi). lia.
Qed.

Section AddArticleFacts.
Variable md5_hexdigest : string → string.

(** X9.  [add_article] keeps the keys of the table: on a store with unique
    ids, unique url hashes and ids within the counter it returns an id,
    keeps the three facts, never lowers the counter, and the id is that of
    a stored row with the URL's hash; for a URL not stored before the id
    is above the counter and above every stored id. *)
Theorem add_article_keeps_keys (now : Z) (title url outlet issue_area : string)
    (db : Database) :
  articles_keyed db →
  ∃ article_id db',
    add_article md5_hexdigest now title url outlet issue_area db = (Some article_id, db') ∧
    articles_keyed db' ∧
    articles_seq db ≤ articles_seq db' ∧
    (∃ row, row ∈ articles db' ∧ a_id row = article_id ∧
            a_url_hash row = md5_hexdigest url) ∧
    (filter (λ a, a_url_hash a = md5_hexdigest url) (articles db) = [] →
     articles_seq db < article_id ∧ ∀ a, a ∈ articles db → a_id a < article_id).
Proof.
  intros (Hid & Hhash & Hseq). unfold add_article.
  destruct (filter (λ a, a_url_hash a = md5_hexdigest url) (articles db))
    as [|row rows] eqn:Hf.
  - destruct (next_rowid_gt (articles_seq db) (a_id <$> articles db)) as [Hgt Hall].
    eexists _, _. split; [reflexivity|]. unfold articles_keyed.
    cbn [articles articles_seq].
    split; [|split; [lia|split]].
    + split; [|split].
      * rewrite fmap_app. apply NoDup_app. split; [done|]. split; [|apply NoDup_singleton].
        intros i Hi ->%list_elem_of_singleton. specialize (Hall _ Hi). cbn in Hall. lia.
      * rewrite fmap_app. apply NoDup_app. split; [done|]. split; [|apply NoDup_singleton].
        intros h (a & -> & Ha)%list_elem_of_fmap Hh%list_elem_of_singleton. cbn in Hh.
        exact (filter_nil_not_elem_of _ _ a Hf Hh Ha).
      * intros a [Ha| ->%list_elem_of_singleton]%elem_of_app; [|cbn; lia].
        specialize (Hseq a Ha). lia.
    + eexists. split; [apply elem_of_app; right; left|done].
    + intros _. split; [done|]. intros a Ha. apply Hall. by apply list_elem_of_fmap_2.
  - destruct (next_rowid_gt (articles_seq db) (a_id <$> articles db)) as [Hgt _].
    cbn [head]. exists (a_id row), (ignored_articles_insert db). split; [done|].
    cbn [ignored_articles_insert articles articles_seq]. split.
    { split; [done|]. split; [done|]. cbn [articles articles_seq].
      intros a Ha. specialize (Hseq a Ha).
      unfold ignored_articles_insert. cbn [articles_seq]. lia. }
    split; [lia|]. split; [|done]. exists row. cbn [articles].
    assert (Hrow : row ∈ filter (λ a, a_url_hash a = md5_hexdigest url) (articles db))
      by (rewrite Hf; left).
    apply list_elem_of_filter in Hrow as [? ?]. done.
Qed.

End AddArticleFacts.

Lemma add_article_keeps_keys_witness :
  ∃ article_id db',
    add_article Desk.digest 400 "New" "https://stories.example/New" "Gazette" "Health"
      Sample.scenario_store = (Some article_id, db') ∧
    articles_keyed db' ∧
    articles_seq Sample.scenario_store ≤ articles_seq db' ∧
    (∃ row, row ∈ articles db' ∧ a_id row = article_id ∧
            a_url_hash row = Desk.digest "https://stories.example/New") ∧
    (filter (λ a, a_url_hash a = Desk.digest "https://stories.example/New")
       (articles Sample.scenario_store) = [] →
     articles_seq Sample.scenario_store < article_id ∧
     ∀ a, a ∈ articles Sample.scenario_store → a_id a < article_id).
Proof.
  apply (add_article_keeps_keys Desk.digest 400 "New" "https://stories.example/New"
           "Gazette" "Health" Sample.scenario_store).
  split; [|split; [|apply Forall_forall]];
    apply (bool_decide_unpack _); vm_compute; exact I.
Defined.

Lemma order_by_desc_newest_last {A : Type} (key : A → Z) (l : list A) (x : A) :
  (∀ y, y ∈ l → key y < key x) →
  ∃ rest, order_by_desc key (l ++ [x]) = x :: rest.
Proof.
  unfold order_by_desc. rewrite foldr_app. cbn [foldr insert_desc].
  induction l as [|y l IH]; intros Hlt; cbn [foldr]; [by eexists|].
  destruct IH as [rest ->]; [intros z Hz; apply Hlt; by right|].
  cbn [insert_desc]. rewrite decide_True by (apply Hlt; left). by eexists.
Qed.

Section NewArticle.
Variable md5_hexdigest : string → string.

(** X10.  A new article comes first: added under a URL not stored, later
    than every stored article, in an issue area of the subscriber, it heads
    that topic's list in the subscriber's next selection for a count
    [1 ≤ n], provided no send record names an article id above the
    counter. *)
Theorem new_article_selected_first (now : Z) (title url outlet issue_area : string)
    (db : Database) (subscriber : Subscriber.t) (n : Z) (self : ArticleSelector.t) :
  filter (λ a, a_url_hash a = md5_hexdigest url) (articles db) = [] →
  (∀ a, a ∈ articles db → a_scraped_at a < now) →
  (∀ s, s ∈ article_sends db → s_article_id s ≤ articles_seq db) →
  issue_area ∈ Subscriber.issue_areas subscriber →
  1 ≤ n →
  ∃ article_id db' selected self' rest,
    add_article md5_hexdigest now title url outlet issue_area db = (Some article_id, db') ∧
    select_articles_for_subscriber subscriber n db' self = (Return selected, self') ∧
    selected !! issue_area =
      Some ({| Article.title := title; Article.url := url; Article.outlet := outlet;
               Article.issue_area := issue_area; Article.id := Some article_id;
               Article.scraped_at := Some now; Article.excluded := false |} :: rest).
Proof.
  intros Hnew Hnow Hsends HT Hn. unfold add_article. rewrite Hnew.
  set (row0 := {| a_id := next_rowid (articles_seq db) (a_id <$> articles db);
                  a_url_hash := md5_hexdigest url; a_title := title;
                  a_url := url; a_outlet := outlet; a_issue_area := issue_area;
                  a_scraped_at := now; a_excluded := false |}).
  set (db' := {| subscribers := subscribers db;
                 articles := articles db ++ [row0];
                 articles_seq := a_id row0;
                 article_sends := article_sends db;
                 article_sends_seq := article_sends_seq db;
                 admin_settings := admin_settings db |}).
  destruct (select_returns subscriber n db' self) as (s & f & Hsel & Hs & _).
  assert (Hhead : ∃ rest, fresh_rows (Subscriber.id subscriber) issue_area db' =
                          row0 :: rest).
  { unfold fresh_rows, fresh_rows_ordered. rewrite where_fresh_filter.
    cbn [articles article_sends db']. rewrite filter_app, filter_cons, filter_nil.
    rewrite decide_True.
    - destruct (order_by_desc_newest_last a_scraped_at
        (filter (λ a, a_issue_area a = issue_area ∧ a_excluded a = false ∧
                      Forall (λ s, ¬ join_on (Subscriber.id subscriber) a s)
                        (article_sends db)) (articles db)) row0) as [rest ->].
      + intros y [_ Hy]%list_elem_of_filter. by apply Hnow.
      + by eexists.
    - split; [done|]. split; [done|]. apply Forall_forall. intros s0 Hs0 [Hid _].
      destruct (next_rowid_gt (articles_seq db) (a_id <$> articles db)) as [Hgt _].
      specialize (Hsends s0 Hs0). cbn in Hid. lia. }
  destruct Hhead as [rest Hrows].
  destruct (Z.to_nat n) as [|k] eqn:Hk; [lia|].
  eexists (a_id row0), db', s, _, _. split; [reflexivity|]. split; [exact Hsel|].
  rewrite Hs, decide_True, picked_prefix by (done || lia).
  unfold candidate_articles, fresh_articles at 1. rewrite Hrows, Hk.
  cbn [fmap list_fmap app take]. reflexivity.
Qed.

End NewArticle.

Lemma new_article_selected_first_witness :
  ∃ article_id db' selected self' rest,
    add_article Desk.digest 400 "New" "https://stories.example/New" "Gazette" "Health"
      Sample.sent_store = (Some article_id, db') ∧
    select_articles_for_subscriber Sample.scenario_reader 1 db' init =
      (Return selected, self') ∧
    selected !! "Health" =
      Some ({| Article.title := "New"; Article.url := "https://stories.example/New";
               Article.outlet := "Gazette"; Article.issue_area := "Health";
               Article.id := Some article_id; Article.scraped_at := Some 400;
               Article.excluded := false |} :: rest).
Proof.
  apply (new_article_selected_first Desk.digest 400 "New" "https://stories.example/New"
           "Gazette" "Health" Sample.sent_store Sample.scenario_reader 1 init).
  - reflexivity.
  - apply Forall_forall, (bool_decide_unpack _). vm_compute. exact I.
  - apply Forall_forall, (bool_decide_unpack _). vm_compute. exact I.
  - apply (bool_decide_unpack _). vm_compute. exact I.
  - lia.
Defined.


Lemma filter_ext_elem_of {A : Type} (P Q : A → Prop)
    `{!∀ x, Decision (P x), !∀ x, Decision (Q x)} (l : list A) :
  (∀ x, x ∈ l → P x ↔ Q x) → filter P l = filter Q l.
Proof.
  induction l as [|x l IH]; intros Hext; [done|].
  rewrite !filter_cons, IH by (intros y Hy; apply Hext; by right).
  destruct (decide (P x)) as [HP|HP], (decide (Q x)) as [HQ|HQ]; try done;
    exfalso; pose proof (Hext x (list_elem_of_here _ _)); tauto.
Qed.

Section SubscriberFacts.
Import Subscribers.

Lemma add_subscriber_rows_for ct now email i1 i2 i3 tbl other :
  filter (λ r, sr_email r = other) (subscriber_rows (add_subscriber ct now email i1 i2 i3 tbl).2) =
  if decide (other = email)
  then [ {| sr_id := next_rowid (subscribers_seq tbl) (sr_id <$> subscriber_rows tbl);
            sr_email := email; sr_issue_area_1 := i1; sr_issue_area_2 := i2;
            sr_issue_area_3 := i3; sr_active := true; sr_created_at := ct;
            sr_updated_at := now |} ]
  else filter (λ r, sr_email r = other) (subscriber_rows tbl).
Proof.
  cbn [add_subscriber snd subscriber_rows]. rewrite filter_app, filter_cons, filter_nil.
  cbn [sr_email]. case_decide as Ho.
  - subst other. rewrite decide_True by done.
    rewrite list_filter_filter, (filter_ext_elem_of _ (λ _, False)) by tauto.
    assert (Hnone : ∀ l : list SubscriberRecord, filter (λ _, False) l = []).
    { intros l. induction l as [|r l IH]; [done|]. by rewrite filter_cons_False by tauto. }
    by rewrite Hnone.
  - rewrite decide_False by done. rewrite app_nil_r.
    apply list_filter_filter_l. by intros x -> ->.
Qed.

(** X12.  Subscribing and looking up: [add_subscriber] returns [True], and
    [get_subscriber_by_email] then returns the issue areas given, active,
    under an id above the counter and every stored id; one row has the
    email; other emails look up as before. *)
Theorem add_subscriber_then_lookup (current_timestamp now : Z)
    (email issue1 issue2 issue3 : string) (tbl : SubscribersTable) :
  ∃ tbl' subscriber_id,
    add_subscriber current_timestamp now email issue1 issue2 issue3 tbl = (true, tbl') ∧
    get_subscriber_by_email email tbl' =
      Some {| sd_id := subscriber_id; sd_email := email;
              sd_issue_area_1 := issue1; sd_issue_area_2 := issue2;
              sd_issue_area_3 := issue3; sd_active := Some true;
              sd_created_at := current_timestamp; sd_updated_at := now |} ∧
    subscribers_seq tbl < subscriber_id ∧
    (∀ r, r ∈ subscriber_rows tbl → sr_id r < subscriber_id) ∧
    length (filter (λ r, sr_email r = email) (subscriber_rows tbl')) = 1%nat ∧
    (∀ other, other ≠ email →
       get_subscriber_by_email other tbl' = get_subscriber_by_email other tbl).
Proof.
  exists (add_subscriber current_timestamp now email issue1 issue2 issue3 tbl).2,
    (next_rowid (subscribers_seq tbl) (sr_id <$> subscriber_rows tbl)).
  split; [reflexivity|].
  destruct (next_rowid_gt (subscribers_seq tbl) (sr_id <$> subscriber_rows tbl))
    as [Hgt Hall].
  split; [|split; [exact Hgt|split; [|split]]].
  - unfold get_subscriber_by_email.
    rewrite (add_subscriber_rows_for _ _ _ _ _ _ tbl email), decide_True by done.
    reflexivity.
  - intros r Hr. apply Hall. by apply list_elem_of_fmap_2.
  - by rewrite (add_subscriber_rows_for _ _ _ _ _ _ tbl email), decide_True.
  - intros other Hne. unfold get_subscriber_by_email.
    by rewrite (add_subscriber_rows_for _ _ _ _ _ _ tbl other), decide_False.
Qed.

(** X13.  [add_subscriber] and [deactivate_subscriber] keep the emails
    unique, the ids unique and the ids within the counter. *)
Theorem subscribers_stay_keyed (current_timestamp now : Z)
    (email issue1 issue2 issue3 : string) (tbl : SubscribersTable) :
  subscribers_keyed tbl →
  subscribers_keyed (add_subscriber current_timestamp now email issue1 issue2 issue3 tbl).2 ∧
  subscribers_keyed (deactivate_subscriber now email tbl).2.
Proof.
  intros (Hemail & Hid & Hseq).
  destruct (next_rowid_gt (subscribers_seq tbl) (sr_id <$> subscriber_rows tbl))
    as [Hgt Hall].
  split; unfold subscribers_keyed; cbn [add_subscriber deactivate_subscriber snd
    subscriber_rows subscribers_seq].
  - split; [|split].
    + rewrite fmap_app. apply NoDup_app. split; [|split; [|apply NoDup_singleton]].
      * eapply sublist_NoDup; [exact Hemail|]. apply fmap_sublist, sublist_filter.
      * intros e (r & -> & Hr)%list_elem_of_fmap Heq%list_elem_of_singleton.
        apply list_elem_of_filter in Hr as [Hne _]. by destruct Hne.
    + rewrite fmap_app. apply NoDup_app. split; [|split; [|apply NoDup_singleton]].
      * eapply sublist_NoDup; [exact Hid|]. apply fmap_sublist, sublist_filter.
      * intros i (r & -> & Hr)%list_elem_of_fmap Hi%list_elem_of_singleton.
        apply list_elem_of_filter in Hr as [_ Hr].
        specialize (Hall (sr_id r) (list_elem_of_fmap_2 _ _ _ Hr)). cbn in Hi. lia.
    + intros r [Hr| ->%list_elem_of_singleton]%elem_of_app; [|cbn; lia].
      apply list_elem_of_filter in Hr as [_ Hr]. specialize (Hseq r Hr). lia.
  - assert (Hcols : ∀ l : list SubscriberRecord,
      sr_email <$> ((λ r, if decide (sr_email r = email)
              then {| sr_id := sr_id r; sr_email := sr_email r;
                      sr_issue_area_1 := sr_issue_area_1 r;
                      sr_issue_area_2 := sr_issue_area_2 r;
                      sr_issue_area_3 := sr_issue_area_3 r;
                      sr_active := false; sr_created_at := sr_created_at r;
                      sr_updated_at := now |}
              else r) <$> l) = sr_email <$> l ∧
      sr_id <$> ((λ r, if decide (sr_email r = email)
              then {| sr_id := sr_id r; sr_email := sr_email r;
                      sr_issue_area_1 := sr_issue_area_1 r;
                      sr_issue_area_2 := sr_issue_area_2 r;
                      sr_issue_area_3 := sr_issue_area_3 r;
                      sr_active := false; sr_created_at := sr_created_at r;
                      sr_updated_at := now |}
              else r) <$> l) = sr_id <$> l).
    { intros l. rewrite <- !list_fmap_compose.
      split; apply list_fmap_ext; intros i r _; cbn; by case_decide. }
    destruct (Hcols (subscriber_rows tbl)) as [-> ->].
    split; [done|]. split; [done|].
    intros r' (r & -> & Hr)%list_elem_of_fmap. specialize (Hseq r Hr).
    by case_decide.
Qed.

End SubscriberFacts.

Lemma subscribers_stay_keyed_witness :
  subscribers_keyed
    (Subscribers.add_subscriber 40 50 "reader@example.org" "Energy" "Health" "Housing"
       Desk.readers).2 ∧
  subscribers_keyed (Subscribers.deactivate_subscriber 50 "reader@example.org" Desk.readers).2.
Proof.
  apply (subscribers_stay_keyed 40 50 "reader@example.org" "Energy" "Health" "Housing"
           Desk.readers).
  split; [|split; [|apply Forall_forall]];
    apply (bool_decide_unpack _); vm_compute; exact I.
Defined.

Section OrderByFacts.
Context {A : Type} (le : A → A → bool).

Lemma insert_by_Permutation x (l : list A) : insert_by le x l ≡ₚ x :: l.
Proof.
  induction l as [|y l IH]; cbn; [done|]. destruct (le x y); [done|].
  rewrite IH. apply Permutation_swap.
Qed.

Lemma order_by_Permutation (l : list A) : order_by le l ≡ₚ l.
Proof.
  induction l as [|x l IH]; cbn; [done|]. by rewrite insert_by_Permutation, IH.
Qed.

Lemma order_by_elem_of x (l : list A) : x ∈ order_by le l ↔ x ∈ l.
Proof. by rewrite order_by_Permutation. Qed.

Hypothesis le_total : ∀ x y, le x y = true ∨ le y x = true.

Lemma insert_by_Sorted x (l : list A) :
  Sorted (λ a b, le a b = true) l → Sorted (λ a b, le a b = true) (insert_by le x l).
Proof.
  induction 1 as [|y l Hs IH Hhd]; cbn.
  - by repeat constructor.
  - destruct (le x y) eqn:Hxy.
    + constructor; [by constructor|]. by constructor.
    + constructor; [done|].
      destruct l as [|z l]; cbn in *.
      * constructor. destruct (le_total x y); congruence.
      * destruct (le x z); constructor.
        -- destruct (le_total x y); congruence.
        -- by inversion Hhd.
Qed.

Lemma order_by_Sorted (l : list A) : Sorted (λ a b, le a b = true) (order_by le l).
Proof.
  induction l as [|x l IH]; cbn; [constructor|]. by apply insert_by_Sorted.
Qed.

End OrderByFacts.

Lemma filter_fmap_preserve {A : Type} (P : A → Prop) `{!∀ x, Decision (P x)}
    (f : A → A) (l : list A) :
  (∀ x, P (f x) ↔ P x) → filter P (f <$> l) = f <$> filter P l.
Proof.
  intros Hf. induction l as [|x l IH]; [done|].
  rewrite fmap_cons, !filter_cons, IH.
  destruct (decide (P (f x))) as [H1|H1], (decide (P x)) as [H2|H2]; try done;
    exfalso; specialize (Hf x); tauto.
Qed.

Section SubscriberFacts2.
Import Subscribers.

(** X14.  Subscribing again starts a new history: the row is replaced under
    a new, larger id; where every send record carries a subscriber id
    within the counter, none carries the new id, the fresh query answers
    as for a reader without history and every non-excluded article is
    fresh again. *)
Theorem resubscribe_resets_history (current_timestamp now : Z)
    (email issue1 issue2 issue3 : string) (tbl : SubscribersTable) (db : Database) :
  (∀ s, s ∈ article_sends db → s_subscriber_id s ≤ subscribers_seq tbl) →
  ∃ tbl' data,
    add_subscriber current_timestamp now email issue1 issue2 issue3 tbl = (true, tbl') ∧
    get_subscriber_by_email email tbl' = Some data ∧
    (∀ old, get_subscriber_by_email email tbl = Some old → sd_id old < sd_id data) ∧
    (∀ issue_area,
       DatabaseManager.fresh_rows (Subscriber.id (Subscriber_from_dict data)) issue_area db =
       DatabaseManager.fresh_rows None issue_area db) ∧
    (∀ a, a ∈ articles db → a_excluded a = false →
          is_fresh (Subscriber.id (Subscriber_from_dict data)) (a_issue_area a) db a).
Proof.
  intros Hledger.
  set (new_id := next_rowid (subscribers_seq tbl) (sr_id <$> subscriber_rows tbl)).
  destruct (next_rowid_gt (subscribers_seq tbl) (sr_id <$> subscriber_rows tbl))
    as [Hgt Hids]. fold new_id in Hgt, Hids.
  assert (Hall : ∀ r, r ∈ subscriber_rows tbl → sr_id r < new_id).
  { intros r Hr. apply Hids. by apply list_elem_of_fmap_2. }
  exists (add_subscriber current_timestamp now email issue1 issue2 issue3 tbl).2.
  eexists. split; [reflexivity|]. split.
  { unfold get_subscriber_by_email.
    rewrite (add_subscriber_rows_for _ _ _ _ _ _ tbl email), decide_True by done.
    reflexivity. }
  cbn [sd_id Subscriber_from_dict Subscriber.id].
  assert (Hnone : ∀ s, s ∈ article_sends db → s_subscriber_id s ≠ new_id).
  { intros s Hs. specialize (Hledger s Hs). lia. }
  split; [|split].
  - intros old. unfold get_subscriber_by_email.
    destruct (head _) as [row|] eqn:Hrow; [|done]. intros [= <-]. cbn.
    apply head_Some_elem_of, list_elem_of_filter in Hrow as [_ Hrow]. by apply Hall.
  - intros issue_area. unfold fresh_rows, fresh_rows_ordered.
    rewrite !where_fresh_filter. do 2 f_equal. apply filter_ext_elem_of.
    intros a Ha. split; intros (? & ? & _); (split; [done|split; [done|]]);
      apply Forall_forall; intros s Hs [_ Hj]; [done|].
    injection Hj as Hj. by apply (Hnone s).
  - intros a Ha Hex. split; [done|]. split; [done|]. split; [done|].
    intros sid [= <-] (s & Hs & Hsid & _). by apply (Hnone s).
Qed.

(** X15.  [deactivate_subscriber] returns [True] exactly when a row has the
    email, else [False] with the table unchanged; afterwards the active
    list is the old one without the email, the lookup of the email gives
    the same data with [active] false and [updated_at] the time of the
    call, and other emails look up as before. *)
Theorem deactivate_subscriber_effect (now : Z) (email : string) (tbl : SubscribersTable) :
  ((deactivate_subscriber now email tbl).1 = true ↔
   ∃ r, r ∈ subscriber_rows tbl ∧ sr_email r = email) ∧
  ((∀ r, r ∈ subscriber_rows tbl → sr_email r ≠ email) →
   deactivate_subscriber now email tbl = (false, tbl)) ∧
  (∀ d, d ∈ get_all_active_subscribers (deactivate_subscriber now email tbl).2 ↔
        d ∈ get_all_active_subscribers tbl ∧ sd_email d ≠ email) ∧
  get_subscriber_by_email email (deactivate_subscriber now email tbl).2 =
    (λ d, {| sd_id := sd_id d; sd_email := sd_email d;
             sd_issue_area_1 := sd_issue_area_1 d;
             sd_issue_area_2 := sd_issue_area_2 d;
             sd_issue_area_3 := sd_issue_area_3 d;
             sd_active := Some false; sd_created_at := sd_created_at d;
             sd_updated_at := now |}) <$> get_subscriber_by_email email tbl ∧
  (∀ other, other ≠ email →
     get_subscriber_by_email other (deactivate_subscriber now email tbl).2 =
     get_subscriber_by_email other tbl).
Proof.
  set (off := λ r, if decide (sr_email r = email)
              then {| sr_id := sr_id r; sr_email := sr_email r;
                      sr_issue_area_1 := sr_issue_area_1 r;
                      sr_issue_area_2 := sr_issue_area_2 r;
                      sr_issue_area_3 := sr_issue_area_3 r;
                      sr_active := false; sr_created_at := sr_created_at r;
                      sr_updated_at := now |}
              else r).
  assert (Hemail : ∀ r, sr_email (off r) = sr_email r).
  { intros r. unfold off. by case_decide. }
  assert (Hrows : subscriber_rows (deactivate_subscriber now email tbl).2 =
                  off <$> subscriber_rows tbl) by done.
  split; [|split; [|split; [|split]]].
  - cbn. rewrite bool_decide_eq_true, Exists_exists. naive_solver.
  - intros Hno. unfold deactivate_subscriber. f_equal.
    + apply bool_decide_eq_false. rewrite Exists_exists. naive_solver.
    + destruct tbl as [rows seq]. cbn in *. f_equal.
      rewrite <- (list_fmap_id rows) at 2. apply list_fmap_ext.
      intros i r Hr%list_elem_of_lookup_2. by rewrite decide_False by by apply Hno.
  - intros d. unfold get_all_active_subscribers. rewrite Hrows.
    rewrite !list_elem_of_fmap. setoid_rewrite order_by_elem_of.
    setoid_rewrite list_elem_of_filter. setoid_rewrite list_elem_of_fmap. split.
    + intros (r' & -> & Hact & r & -> & Hr). unfold off in Hact |- *.
      destruct (decide (sr_email r = email)) as [He|He]; [done|].
      split; [|done]. by exists r.
    + intros [(r & -> & Hact & Hr) Hne]. cbn in Hne. exists r.
      split; [done|]. split; [done|]. exists r. split; [|done].
      unfold off. by rewrite decide_False.
  - unfold get_subscriber_by_email. rewrite Hrows.
    rewrite (filter_fmap_preserve (λ r, sr_email r = email) off)
      by (intros r; by rewrite Hemail).
    destruct (filter _ (subscriber_rows tbl)) as [|r rest] eqn:Hf; [done|].
    assert (Hr : r ∈ filter (λ r, sr_email r = email) (subscriber_rows tbl))
      by (rewrite Hf; left).
    apply list_elem_of_filter in Hr as [Hr _]. cbn. unfold off.
    rewrite decide_True by done. by rewrite Hr.
  - intros other Hne. unfold get_subscriber_by_email. rewrite Hrows.
    rewrite (filter_fmap_preserve (λ r, sr_email r = other) off)
      by (intros r; by rewrite Hemail).
    destruct (filter _ (subscriber_rows tbl)) as [|r rest] eqn:Hf; [done|].
    assert (Hr : r ∈ filter (λ r, sr_email r = other) (subscriber_rows tbl))
      by (rewrite Hf; left).
    apply list_elem_of_filter in Hr as [Hr _]. cbn. unfold off.
    by rewrite decide_False by congruence.
Qed.

(** X16.  [get_all_active_subscribers] returns exactly the dicts of the
    active rows, without an [active] key, sorted by email, one per active
    row; [Subscriber.from_dict] of each is active and has the row's id. *)
Theorem active_subscribers_listing (tbl : SubscribersTable) :
  (∀ d, d ∈ get_all_active_subscribers tbl ↔
        ∃ r, r ∈ subscriber_rows tbl ∧ sr_active r = true ∧
             d = {| sd_id := sr_id r; sd_email := sr_email r;
                    sd_issue_area_1 := sr_issue_area_1 r;
                    sd_issue_area_2 := sr_issue_area_2 r;
                    sd_issue_area_3 := sr_issue_area_3 r;
                    sd_active := None;
                    sd_created_at := sr_created_at r;
                    sd_updated_at := sr_updated_at r |}) ∧
  Sorted (λ d1 d2, String.leb (sd_email d1) (sd_email d2) = true)
    (get_all_active_subscribers tbl) ∧
  length (get_all_active_subscribers tbl) =
    length (filter (λ r, sr_active r = true) (subscriber_rows tbl)) ∧
  (∀ d, d ∈ get_all_active_subscribers tbl →
        Subscriber.active (Subscriber_from_dict d) = true ∧
        Subscriber.id (Subscriber_from_dict d) = Some (sd_id d)).
Proof.
  unfold get_all_active_subscribers. split; [|split; [|split]].
  - intros d. rewrite list_elem_of_fmap. setoid_rewrite order_by_elem_of.
    setoid_rewrite list_elem_of_filter. naive_solver.
  - eapply (Sorted_fmap _ (λ r1 r2, String.leb (sr_email r1) (sr_email r2) = true));
      [|apply (order_by_Sorted (λ r1 r2, String.leb (sr_email r1) (sr_email r2)))].
    + done.
    + intros x y. apply String.leb_total.
  - by rewrite length_fmap, order_by_Permutation.
  - intros d (r & -> & _)%list_elem_of_fmap. done.
Qed.

End SubscriberFacts2.

Lemma resubscribe_resets_history_witness :
  ∃ tbl' data,
    Subscribers.add_subscriber 40 50 "reader@example.org" "Energy" "Health" "Housing"
      Desk.readers = (true, tbl') ∧
    Subscribers.get_subscriber_by_email "reader@example.org" tbl' = Some data ∧
    (∀ old, Subscribers.get_subscriber_by_email "reader@example.org" Desk.readers = Some old →
            sd_id old < sd_id data) ∧
    (∀ issue_area,
       DatabaseManager.fresh_rows (Subscriber.id (Subscriber_from_dict data)) issue_area
         Sample.sent_store =
       DatabaseManager.fresh_rows None issue_area Sample.sent_store) ∧
    (∀ a, a ∈ articles Sample.sent_store → a_excluded a = false →
          is_fresh (Subscriber.id (Subscriber_from_dict data)) (a_issue_area a)
            Sample.sent_store a).
Proof.
  apply (resubscribe_resets_history 40 50 "reader@example.org" "Energy" "Health" "Housing"
           Desk.readers Sample.sent_store).
  apply Forall_forall, (bool_decide_unpack _). vm_compute. exact I.
Defined.

Lemma length_filter_split {A : Type} (P : A → Prop) `{!∀ x, Decision (P x)} (l : list A) :
  (length (filter P l) + length (filter (λ x, ¬ P x) l) = length l)%nat.
Proof.
  induction l as [|x l IH]; [done|]. rewrite !filter_cons.
  destruct (decide (P x)), (decide (¬ P x)); cbn [length]; try tauto; lia.
Qed.

Section ScraperFacts.
Import SolutionsStoryScraper.

Lemma to_delete_sent cutoff db a :
  to_delete cutoff db a ↔
  a_scraped_at a < cutoff ∧ ∀ sid, ¬ has_send db sid (a_id a).
Proof.
  unfold to_delete, has_send. rewrite list_elem_of_fmap. split.
  - intros [Hold Hno]. split; [done|]. intros sid (s & Hs & _ & Haid).
    apply Hno. by exists s.
  - intros [Hold Hno]. split; [done|]. intros (s & Haid & Hs).
    apply (Hno (s_subscriber_id s)). by exists s.
Qed.

(** X17.  The retention cleanup: [cleanup_old_articles] keeps exactly the
    articles scraped at or after the cutoff and those named by a send
    record, returns the number of rows removed, leaves the send records
    and the counter alone, keeps the keys, and an article is fresh
    afterwards iff it was fresh before and was kept. *)
Theorem cleanup_keeps_sent_articles (now days_to_keep : Z) (db : Database) :
  let cutoff_date := now - days_to_keep * 86400 in
  let deleted_count := (cleanup_old_articles now days_to_keep db).1 in
  let db' := (cleanup_old_articles now days_to_keep db).2 in
  (∀ a, a ∈ articles db' ↔
        a ∈ articles db ∧
        (cutoff_date ≤ a_scraped_at a ∨ ∃ sid, has_send db sid (a_id a))) ∧
  deleted_count = len (articles db) - len (articles db') ∧
  article_sends db' = article_sends db ∧
  articles_seq db' = articles_seq db ∧
  (articles_keyed db → articles_keyed db') ∧
  (∀ subscriber_id issue_area a,
     is_fresh subscriber_id issue_area db' a ↔
     is_fresh subscriber_id issue_area db a ∧ a ∈ articles db').
Proof.
  cbv zeta. unfold cleanup_old_articles, timedelta_days. cbn [fst snd].
  set (cutoff := now - days_to_keep * 86400).
  assert (Hin : ∀ a, a ∈ filter (λ a, ¬ to_delete cutoff db a) (articles db) ↔
                     a ∈ articles db ∧
                     (cutoff ≤ a_scraped_at a ∨ ∃ sid, has_send db sid (a_id a))).
  { intros a. rewrite list_elem_of_filter, to_delete_sent. split.
    - intros [Hkeep Ha]. split; [done|].
      destruct (decide (cutoff ≤ a_scraped_at a)) as [?|Hold]; [by left|]. right.
      destruct (decide (a_id a ∈ (s_article_id <$> article_sends db))) as [Hs|Hs].
      + apply list_elem_of_fmap in Hs as (s & Haid & Hs).
        exists (s_subscriber_id s), s. done.
      + destruct Hkeep. split; [lia|]. intros sid (s & Hs' & _ & Haid).
        apply Hs, list_elem_of_fmap. by exists s.
    - intros [Ha [Hnew|[sid Hsent]]]; (split; [|done]); intros [Hold Hno];
        [lia|by apply (Hno sid)]. }
  split; [exact Hin|]. split; [|split; [done|split; [done|split]]].
  - unfold len. cbn [articles].
    pose proof (length_filter_split (to_delete cutoff db) (articles db)). lia.
  - intros (Hid & Hhash & Hseq). unfold articles_keyed. cbn [articles articles_seq].
    split; [|split].
    + eapply sublist_NoDup; [exact Hid|]. apply fmap_sublist, sublist_filter.
    + eapply sublist_NoDup; [exact Hhash|]. apply fmap_sublist, sublist_filter.
    + intros a [_ Ha]%list_elem_of_filter. by apply Hseq.
  - intros subscriber_id issue_area a. unfold is_fresh, has_send.
    cbn [articles article_sends]. rewrite Hin. tauto.
Qed.

Lemma order_by_NoDup {A : Type} (le : A → A → bool) (l : list A) :
  NoDup l → NoDup (order_by le l).
Proof. by rewrite order_by_Permutation. Qed.

(** X18.  [get_recent_articles_count] maps a topic to the number of its
    non-excluded articles scraped at or after the cutoff when there is
    one, and has no key for the topic otherwise. *)
Theorem recent_articles_count_lookup (now days : Z) (db : Database) (T : string) :
  let count :=
    len (filter (λ a, a_issue_area a = T ∧
                      (a_scraped_at a >= now - days * 86400 ∧ a_excluded a = false))
           (articles db)) in
  get_recent_articles_count now days db !! T =
    if decide (0 < count) then Some count else None.
Proof.
  cbv zeta. unfold get_recent_articles_count, timedelta_days.
  set (rows := filter (λ a, a_scraped_at a >= now - days * 86400 ∧ a_excluded a = false)
                      (articles db)).
  assert (Hcount :
    filter (λ a, a_issue_area a = T ∧
                 (a_scraped_at a >= now - days * 86400 ∧ a_excluded a = false))
      (articles db) = filter (λ a, a_issue_area a = T) rows).
  { unfold rows. rewrite list_filter_filter. by apply filter_ext_elem_of. }
  rewrite Hcount. clear Hcount.
  set (groups := order_by String.leb (remove_dups (a_issue_area <$> rows))).
  assert (Hgroups : T ∈ groups ↔ filter (λ a, a_issue_area a = T) rows ≠ []).
  { unfold groups. rewrite order_by_elem_of, elem_of_remove_dups, list_elem_of_fmap. split.
    - intros (a & -> & Ha) Hnil. by apply (filter_nil_not_elem_of _ _ a Hnil).
    - destruct (filter _ rows) as [|a l] eqn:Hf; [done|]. intros _.
      assert (Ha : a ∈ filter (λ a, a_issue_area a = T) rows) by (rewrite Hf; left).
      apply list_elem_of_filter in Ha as [? ?]. by exists a. }
  assert (Hkeys : ((λ g, (g, len (filter (λ a, a_issue_area a = g) rows))) <$> groups).*1
                  = groups).
  { rewrite <- list_fmap_compose. rewrite <- (list_fmap_id groups) at 2.
    by apply list_fmap_ext. }
  destruct (decide (T ∈ groups)) as [HT|HT].
  - rewrite (decide_True (P := 0 < _)).
    2:{ apply Hgroups in HT. unfold len.
        destruct (filter _ rows); [done|].
        cbn [length]. lia. }
    apply elem_of_list_to_map_1.
    + rewrite Hkeys. apply order_by_NoDup, NoDup_remove_dups.
    + apply list_elem_of_fmap. by exists T.
  - rewrite (decide_False (P := 0 < _)).
    2:{ destruct (filter _ rows) eqn:Hf;
          [unfold len; cbn [length]; lia|].
        destruct HT. by apply Hgroups. }
    apply not_elem_of_list_to_map_1. by rewrite Hkeys.
Qed.

End ScraperFacts.

Lemma first_occurrences_elem_of (keys : list string) (k : string) :
  k ∈ first_occurrences keys ↔ k ∈ keys.
Proof.
  induction keys as [|k0 keys IH]; cbn [first_occurrences]; [done|].
  rewrite !elem_of_cons, list_elem_of_filter, IH.
  destruct (decide (k = k0)); naive_solver.
Qed.

Lemma fmap_fixed {A} (f : A → A) (l : list A) :
  (∀ x, x ∈ l → f x = x) → f <$> l = l.
Proof.
  induction l as [|x l IH]; intros Hf; [done|]. cbn [fmap list_fmap].
  rewrite (Hf x) by apply list_elem_of_here. f_equal. apply IH.
  intros y Hy. apply Hf. by apply elem_of_cons; right.
Qed.

Section CampaignFacts.
Import Campaigns.

(** X19.  A campaign from creation to sent: [create_campaign] appends one
    pending row, with 0 recipients and created by admin, under an id above
    the counter and every stored id, and returns the id;
    [mark_campaign_sent] on it rewrites status, time, recipients and
    article ids of this row only; on an id no row has it changes nothing. *)
Theorem campaign_sent_round_trip (campaign_type notes : string) (scheduled_for : option Z)
    (now total_recipients : Z) (articles_sent : list Z) (tbl : CampaignsTable) :
  ∃ campaign_id tbl1,
    create_campaign campaign_type scheduled_for notes tbl = (campaign_id, tbl1) ∧
    campaigns_seq tbl < campaign_id ∧
    (∀ c, c ∈ campaign_rows tbl → c_id c < campaign_id) ∧
    campaign_rows tbl1 =
      (campaign_rows tbl ++
       [ {| c_id := campaign_id; c_campaign_type := campaign_type;
            c_status := "pending"; c_scheduled_for := scheduled_for;
            c_sent_at := None; c_total_recipients := 0;
            c_articles_sent := None; c_created_by := "admin";
            c_notes := notes |} ])%list ∧
    campaign_rows (mark_campaign_sent now campaign_id total_recipients articles_sent tbl1) =
      (campaign_rows tbl ++
       [ {| c_id := campaign_id; c_campaign_type := campaign_type;
            c_status := "sent"; c_scheduled_for := scheduled_for;
            c_sent_at := Some now; c_total_recipients := total_recipients;
            c_articles_sent := Some articles_sent; c_created_by := "admin";
            c_notes := notes |} ])%list ∧
    (∀ other, (∀ c, c ∈ campaign_rows tbl1 → c_id c ≠ other) →
       mark_campaign_sent now other total_recipients articles_sent tbl1 = tbl1).
Proof.
  destruct (next_rowid_gt (campaigns_seq tbl) (c_id <$> campaign_rows tbl)) as [Hgt Hall].
  eexists _, _. split; [reflexivity|]. split; [exact Hgt|].
  assert (Hlt : ∀ c, c ∈ campaign_rows tbl →
            c_id c < next_rowid (campaigns_seq tbl) (c_id <$> campaign_rows tbl)).
  { intros c Hc. apply Hall. by apply list_elem_of_fmap_2. }
  split; [exact Hlt|]. split; [done|]. split.
  - cbn [mark_campaign_sent campaign_rows]. rewrite fmap_app. f_equal.
    + apply fmap_fixed. intros c Hc. rewrite decide_False; [done|].
      specialize (Hlt c Hc). lia.
    + cbn. by rewrite decide_True.
  - intros other Hno. unfold mark_campaign_sent. cbn [campaign_rows campaigns_seq].
    f_equal. apply fmap_fixed. intros c Hc. by rewrite decide_False by by apply Hno.
Qed.

End CampaignFacts.

Section EmailFacts.
Import DatabaseManager ArticleSelector EmailService.
Variable render :
  Z → Subscriber.t → gmap string (list Article.t) → ArticleSelector.t → string.

Lemma record_one_mono now subscriber cid db a sid aid :
  has_send db sid aid → has_send (record_one now subscriber cid db a) sid aid.
Proof.
  intros Hs. unfold record_one. destruct (Article.id a); [|done].
  case_decide; [|done]. by apply record_article_send_mono.
Qed.

Lemma record_one_articles now subscriber cid db a :
  articles (record_one now subscriber cid db a) = articles db.
Proof.
  unfold record_one. destruct (Article.id a); [|done].
  case_decide; [|done]. apply record_article_send_articles.
Qed.

Lemma record_list_mono now subscriber cid (l : list Article.t) db sid aid :
  has_send db sid aid →
  has_send (foldl (record_one now subscriber cid) db l) sid aid.
Proof.
  revert db. induction l as [|a l IH]; intros db Hs; [done|].
  cbn [foldl]. by apply IH, record_one_mono.
Qed.

Lemma record_list_recorded now subscriber cid (l : list Article.t) db sid a aid :
  Subscriber.id subscriber = Some sid → a ∈ l → Article.id a = Some aid → aid ≠ 0 →
  has_send (foldl (record_one now subscriber cid) db l) sid aid.
Proof.
  intros Hsid Ha Haid Hnz. revert db.
  induction l as [|b l IH]; intros db; [by apply elem_of_nil in Ha|].
  cbn [foldl]. apply elem_of_cons in Ha as [<-|Ha]; [|by apply IH].
  apply record_list_mono. unfold record_one. rewrite Haid, decide_True, Hsid by done.
  apply record_article_send_recorded.
Qed.

Lemma record_selected_unfold now subscriber cid selected db :
  record_selected now subscriber cid selected db =
  foldl (λ db T, foldl (record_one now subscriber cid) db (default [] (selected !! T)))
        db (first_occurrences (Subscriber.issue_areas subscriber)).
Proof. reflexivity. Qed.

Lemma record_selected_recorded now subscriber cid
    (selected : gmap string (list Article.t)) db sid T l a aid :
  Subscriber.id subscriber = Some sid →
  T ∈ Subscriber.issue_areas subscriber →
  selected !! T = Some l → a ∈ l → Article.id a = Some aid → aid ≠ 0 →
  has_send (record_selected now subscriber cid selected db) sid aid.
Proof.
  intros Hsid HT%first_occurrences_elem_of Hl Ha Haid Hnz.
  rewrite record_selected_unfold. revert db.
  induction (first_occurrences _) as [|T0 keys IH]; intros db;
    [by apply elem_of_nil in HT|].
  cbn [foldl]. apply elem_of_cons in HT as [<-|HT]; [|by apply IH].
  assert (Hmono : ∀ keys' db', has_send db' sid aid →
    has_send (foldl (λ db T, foldl (record_one now subscriber cid) db
                                (default [] (selected !! T))) db' keys') sid aid).
  { induction keys' as [|k keys' IH']; intros db' Hs; [done|].
    cbn [foldl]. by apply IH', record_list_mono. }
  apply Hmono. rewrite Hl. cbn [default from_option id].
  by apply (record_list_recorded _ _ _ _ _ _ a).
Qed.

Lemma record_selected_articles now subscriber cid
    (selected : gmap string (list Article.t)) db :
  articles (record_selected now subscriber cid selected db) = articles db.
Proof.
  rewrite record_selected_unfold. revert db.
  induction (first_occurrences _) as [|T0 keys IH]; intros db; [done|].
  cbn [foldl]. rewrite IH. generalize (default [] (selected !! T0)). intros l.
  revert db. induction l as [|a l IHl]; intros db; [done|].
  cbn [foldl]. by rewrite IHl, record_one_articles.
Qed.

(** X20.  The newsletter records what it sends.  For a subscriber with an id,
    on a store without an article id 0,
    [generate_newsletter_for_subscriber] returns [None] exactly when the
    selection is empty under every topic, and then writes nothing;
    otherwise it leaves the articles alone and records the sends, and the
    next selection shares no article id with the one sent. *)
Theorem newsletter_never_repeats (now rendered_at campaign_id sid : Z) (subscriber : Subscriber.t)
    (db : Database) (selector : ArticleSelector.t) :
  Subscriber.id subscriber = Some sid →
  (∀ a, a ∈ articles db → a_id a ≠ 0) →
  ∃ first selector1 html db1 second selector2,
    select_articles_for_subscriber subscriber 1 db selector = (Return first, selector1) ∧
    generate_newsletter_for_subscriber render now rendered_at subscriber campaign_id db selector =
      (Return html, db1, selector1) ∧
    (html = None ↔ ∀ T l, first !! T = Some l → l = []) ∧
    (html = None → db1 = db) ∧
    articles db1 = articles db ∧
    select_articles_for_subscriber subscriber 1 db1 selector1 =
      (Return second, selector2) ∧
    ∀ T1 l1 a1 T2 l2 a2,
      first !! T1 = Some l1 → a1 ∈ l1 →
      second !! T2 = Some l2 → a2 ∈ l2 →
      Article.id a1 ≠ Article.id a2.
Proof.
  intros Hsid Hnz. unfold generate_newsletter_for_subscriber, default_articles_per_category.
  destruct (select_returns subscriber 1 db selector) as (s1 & f1 & Hsel1 & Hs1 & _).
  rewrite Hsel1.
  destruct (decide (map_Forall (λ _ articles, articles = []) s1)) as [Hempty|Hsome].
  - destruct (select_returns subscriber 1 db {| last_fallback_usage := Some f1 |})
      as (s2 & f2 & Hsel2 & _).
    eexists s1, _, None, db, s2, _. split; [done|]. split; [done|].
    split; [split; [intros _; exact Hempty|done]|]. split; [done|]. split; [done|].
    split; [exact Hsel2|]. intros T1 l1 a1 T2 l2 a2 Hl1 Ha1.
    rewrite (Hempty T1 l1 Hl1) in Ha1. by apply elem_of_nil in Ha1.
  - set (db1 := record_selected now subscriber campaign_id s1 db).
    destruct (select_returns subscriber 1 db1 {| last_fallback_usage := Some f1 |})
      as (s2 & f2 & Hsel2 & _).
    eexists s1, _, (Some _), db1, s2, _. split; [done|]. split; [done|].
    split; [split; [done|intros H; by destruct Hsome]|]. split; [done|].
    split; [apply record_selected_articles|]. split; [exact Hsel2|].
    intros T1 l1 a1 T2 l2 a2 Hl1 Ha1 Hl2 Ha2 Heq.
    destruct (select_lookup_Some _ _ _ _ _ _ _ _ Hsel1 Hl1) as [HT1 Hp1].
    pose proof Ha1 as Ha1'. rewrite Hp1 in Ha1'.
    apply picked_elem_of in Ha1' as (c & row & _ & Hrow & Harow).
    apply fresh_rows_elem_of in Hrow as (Hin & _).
    assert (Haid : Article.id a1 = Some (a_id row)) by by rewrite Harow.
    apply (selected_not_sent _ _ _ _ _ _ _ _ _ _ (a_id row) Hsid Hsel2 Hl2 Ha2).
    + by rewrite <- Heq.
    + apply (record_selected_recorded _ _ _ _ _ _ T1 l1 a1); try done. by apply Hnz.
Qed.

(** X21.  The preview: [None] and nothing changed for an unknown email; for a
    known one always a page, no send recorded, one pending preview row
    added to the campaigns; the page is the one
    [generate_newsletter_for_subscriber] sends to this subscriber from the
    same store at the same date, whenever it sends one. *)
Theorem preview_matches_newsletter (rendered_at : Z) (email : string) (subs : SubscribersTable)
    (campaigns : CampaignsTable) (db : Database) (selector : ArticleSelector.t) :
  match Subscribers.get_subscriber_by_email email subs with
  | None =>
      preview_newsletter_for_subscriber render rendered_at email subs campaigns db selector =
        (Return None, campaigns, db, selector)
  | Some data =>
      ∃ page campaigns' selector',
        preview_newsletter_for_subscriber render rendered_at email subs campaigns db selector =
          (Return (Some page), campaigns', db, selector') ∧
        (∃ preview_id,
           campaigns_seq campaigns < preview_id ∧
           campaign_rows campaigns' =
             (campaign_rows campaigns ++
              [ {| c_id := preview_id; c_campaign_type := "preview";
                   c_status := "pending"; c_scheduled_for := None;
                   c_sent_at := None; c_total_recipients := 0;
                   c_articles_sent := None; c_created_by := "admin";
                   c_notes := "Preview generation" |} ])%list) ∧
        ∀ now campaign_id selector0 sent db1 selector1,
          generate_newsletter_for_subscriber render now rendered_at (Subscriber_from_dict data)
            campaign_id db selector0 = (Return (Some sent), db1, selector1) →
          sent = page
  end.
Proof.
  unfold preview_newsletter_for_subscriber.
  destruct (Subscribers.get_subscriber_by_email email subs) as [data|]; [|done].
  cbn [Campaigns.create_campaign]. unfold default_articles_per_category.
  destruct (select_returns (Subscriber_from_dict data) 1 db selector)
    as (s & f & Hsel & _).
  rewrite Hsel. eexists _, _, _. split; [reflexivity|]. split.
  - eexists. split; [|reflexivity].
    by destruct (next_rowid_gt (campaigns_seq campaigns) (c_id <$> campaign_rows campaigns)).
  - intros now campaign_id selector0 sent db1 selector1.
    unfold generate_newsletter_for_subscriber, default_articles_per_category.
    rewrite (select_reads_articles_and_sends _ _ db db selector0 selector), Hsel by done.
    case_decide; [done|]. by intros [= <- _ _].
Qed.

End EmailFacts.

Lemma newsletter_never_repeats_witness :
  ∃ first selector1 html db1 second selector2,
    select_articles_for_subscriber Sample.scenario_reader 1 Sample.sent_store init =
      (Return first, selector1) ∧
    EmailService.generate_newsletter_for_subscriber Desk.page 500 501 Sample.scenario_reader 2
      Sample.sent_store init = (Return html, db1, selector1) ∧
    (html = None ↔ ∀ T l, first !! T = Some l → l = []) ∧
    (html = None → db1 = Sample.sent_store) ∧
    articles db1 = articles Sample.sent_store ∧
    select_articles_for_subscriber Sample.scenario_reader 1 db1 selector1 =
      (Return second, selector2) ∧
    ∀ T1 l1 a1 T2 l2 a2,
      first !! T1 = Some l1 → a1 ∈ l1 →
      second !! T2 = Some l2 → a2 ∈ l2 →
      Article.id a1 ≠ Article.id a2.
Proof.
  apply (newsletter_never_repeats Desk.page 500 501 2 1 Sample.scenario_reader
           Sample.sent_store init).
  - reflexivity.
  - apply Forall_forall, (bool_decide_unpack _). vm_compute. exact I.
Defined.
End Further.
